(** * Orchestration scripts of chapter08-A2A: a shallow embedding

    The development follows the Python sources file by file:
    - [Py]: the fragment of Python the scripts rely on (exceptions as values,
      [in], [str.split], [str.strip], [eval] on integer arithmetic);
    - [Graph]: the graph runtime the scripts drive ([StateGraph], [add_node],
      [add_conditional_edges], [add_edge], [compile], [invoke]);
    - [ReactAgent], [ReactAgentV2], [GoogleSearchSimple]: the ReAct scripts and
      their calculator tools;
    - [Travel]: [mcp_travel_langgraph.py];
    - [MultiAgentAsync]: [multi_agent_async.py].

    Strings are byte strings holding the UTF-8 encoding of the Python text.
    Whatever lives outside the scripts (the language model, the agent
    executors, the clock, the part of [eval] beyond integer arithmetic) is a
    field of a type class, so every statement quantifies over it. *)

From Stdlib Require Import Ascii.
From stdpp Require Import gmap strings list fin_maps pretty.

Open Scope string_scope.
Open Scope list_scope.

(* ===================================================================== *)
(** * Part I: the embedding                                               *)
(* ===================================================================== *)

Module Py.

(** ** Exceptions and fallible computations *)

(** Instances of [Exception] that the scripts can meet.  [Failure what] is an
    exception raised by an outside collaborator, [what] being its text.
    Interpreter-level signals that are not instances of [Exception]
    (KeyboardInterrupt, SystemExit) are not modelled. *)
Inductive exn :=
  | SyntaxError
  | ZeroDivisionError
  | KeyError (key : string)
  | IndexError
  | TypeError
  | Failure (what : string).

Inductive outcome (A : Type) :=
  | Returned (a : A)
  | Raised (e : exn).
Arguments Returned {A} a.
Arguments Raised {A} e.

#[global] Instance outcome_ret : MRet outcome := fun _ a => Returned a.
#[global] Instance outcome_bind : MBind outcome := fun _ _ f m =>
  match m with
  | Returned a => f a
  | Raised e => Raised e
  end.

#[global] Instance outcome_fmap : FMap outcome := fun _ _ f m =>
  match m with
  | Returned a => Returned (f a)
  | Raised e => Raised e
  end.

(** [try: body except Exception as e: handler e].  Every exception of [exn]
    is an instance of [Exception], so the handler gets each of them.  A
    signal outside that class would pass the handler; it is no outcome of
    this embedding, and nothing below says that a call cannot end by one. *)
Definition try_except {A} (body : outcome A) (handler : exn → outcome A) : outcome A :=
  match body with
  | Returned a => Returned a
  | Raised e => handler e
  end.

(** ** Strings *)

(** [needle in hay] *)
Fixpoint contains (needle hay : string) : bool :=
  String.prefix needle hay ||
  match hay with
  | "" => false
  | String _ hay' => contains needle hay'
  end.

(** [s.split(sep)] for a non-empty [sep]: scan from the left, cut at every
    match and resume after it.  [skip] counts the bytes of a match still to
    be passed over, [cur] is the piece being collected. *)
Fixpoint split_from (sep : string) (skip : nat) (cur s : string) : list string :=
  match s with
  | "" => [cur]
  | String c s' =>
      match skip with
      | S k => split_from sep k cur s'
      | O =>
          if String.prefix sep s
          then cur :: split_from sep (String.length sep - 1) "" s'
          else split_from sep 0 (cur +:+ String c "") s'
      end
  end.

Definition split (s sep : string) : list string := split_from sep 0 "" s.

(** [l[-1]] on the result of [split], which is never empty. *)
Definition last_piece (l : list string) : string := default "" (last l).

(** Python's whitespace, as [str.strip()] with no argument removes it: the
    ASCII characters 09-0D, 1C-1F and 20, and the code points U+0085, U+00A0,
    U+1680, U+2000-U+200A, U+2028, U+2029, U+202F, U+205F and U+3000, here in
    their UTF-8 encoding. *)
Definition ascii_space (x : N) : bool :=
  ((9 <=? x) && (x <=? 13) || (28 <=? x) && (x <=? 32))%N.

Definition space2 (x y : N) : bool :=
  ((x =? 194) && ((y =? 133) || (y =? 160)))%N.

Definition space3 (x y z : N) : bool :=
  ((x =? 225) && (y =? 154) && (z =? 128)
   || (x =? 226) && (y =? 128)
      && ((128 <=? z) && (z <=? 138) || (z =? 168) || (z =? 169) || (z =? 175))
   || (x =? 226) && (y =? 129) && (z =? 159)
   || (x =? 227) && (y =? 128) && (z =? 128))%N.

(** One whitespace character at the head of [s], if any; the rest of [s]. *)
Definition drop_space (s : string) : option string :=
  match s with
  | String a r1 =>
      if ascii_space (N_of_ascii a) then Some r1 else
      match r1 with
      | String b r2 =>
          if space2 (N_of_ascii a) (N_of_ascii b) then Some r2 else
          match r2 with
          | String c r3 =>
              if space3 (N_of_ascii a) (N_of_ascii b) (N_of_ascii c)
              then Some r3 else None
          | "" => None
          end
      | "" => None
      end
  | "" => None
  end.

(** The same at the end of a string, read backwards. *)
Definition drop_space_rev (s : string) : option string :=
  match s with
  | String c r1 =>
      if ascii_space (N_of_ascii c) then Some r1 else
      match r1 with
      | String b r2 =>
          if space2 (N_of_ascii b) (N_of_ascii c) then Some r2 else
          match r2 with
          | String a r3 =>
              if space3 (N_of_ascii a) (N_of_ascii b) (N_of_ascii c)
              then Some r3 else None
          | "" => None
          end
      | "" => None
      end
  | "" => None
  end.

Fixpoint drop_while (drop : string → option string) (fuel : nat) (s : string) : string :=
  match fuel with
  | O => s
  | S fuel' =>
      match drop s with
      | Some r => drop_while drop fuel' r
      | None => s
      end
  end.

Definition lstrip (s : string) : string :=
  drop_while drop_space (String.length s) s.

Definition rstrip (s : string) : string :=
  String.rev (drop_while drop_space_rev (String.length s) (String.rev s)).

(** [s.strip()] *)
Definition strip (s : string) : string := rstrip (lstrip s).

(** ** [eval] on integer arithmetic

    The calculator tools hand their argument to [eval].  The embedding
    evaluates the expressions written with decimal integer literals, the
    operators [+ - * // % **], parentheses and spaces, with Python's
    precedences; integers are unbounded, [//] and [%] round to the floor.
    The fragment stays well inside the limits of the interpreter: at most
    [max_tokens] tokens, literals and results within the default limit on
    the decimal digits of an integer.  Every other string is left to
    [eval_beyond], a field of [Interpreter]. *)

(** The default of [sys.get_int_max_str_digits()]. *)
Definition int_max_str_digits : nat := 4300.

Definition max_tokens : nat := 50.

Inductive token :=
  | TNum (z : Z)
  | TPlus | TMinus | TStar | TDStar | TDSlash | TPercent
  | TLParen | TRParen.

Definition digit_of (c : ascii) : option Z :=
  let x := N_of_ascii c in
  if ((48 <=? x) && (x <=? 57))%N then Some (Z.of_N x - 48)%Z else None.

(** The digits at the head of [s], in order, and the rest of [s]. *)
Fixpoint take_digits (s : string) : list Z * string :=
  match s with
  | String c s' =>
      match digit_of c with
      | Some d => let '(ds, r) := take_digits s' in (d :: ds, r)
      | None => ([], s)
      end
  | "" => ([], "")
  end.

(** A decimal literal: no leading zero unless every digit is zero, and no
    more digits than the interpreter converts. *)
Definition literal (ds : list Z) : option Z :=
  match ds with
  | [] => None
  | d :: _ =>
      if bool_decide (d = 0%Z) && negb (forallb (Z.eqb 0) ds) then None
      else if bool_decide (int_max_str_digits < length ds) then None
      else Some (foldl (fun acc d => (10 * acc + d)%Z) 0%Z ds)
  end.

(** [None]: a character outside the fragment, a single [/], or a literal
    that [literal] refuses. *)
Fixpoint tokenize (fuel : nat) (s : string) : option (list token) :=
  match fuel with
  | O => None
  | S fuel' =>
      match s with
      | "" => Some []
      | String c s' =>
          let op (t : token) (r : string) := cons t <$> tokenize fuel' r in
          match digit_of c with
          | Some _ =>
              let '(ds, r) := take_digits s in
              z ← literal ds; cons (TNum z) <$> tokenize fuel' r
          | None =>
              if Ascii.eqb c " "%char then tokenize fuel' s'
              else if Ascii.eqb c "+"%char then op TPlus s'
              else if Ascii.eqb c "-"%char then op TMinus s'
              else if Ascii.eqb c "%"%char then op TPercent s'
              else if Ascii.eqb c "("%char then op TLParen s'
              else if Ascii.eqb c ")"%char then op TRParen s'
              else if Ascii.eqb c "*"%char then
                match s' with
                | String c' s'' => if Ascii.eqb c' "*"%char then op TDStar s'' else op TStar s'
                | "" => op TStar s'
                end
              else if Ascii.eqb c "/"%char then
                match s' with
                | String c' s'' => if Ascii.eqb c' "/"%char then op TDSlash s'' else None
                | "" => None
                end
              else None
          end
      end
  end.

Inductive binop := Add | Sub | Mul | FloorDiv | Mod | Pow.

Inductive expr :=
  | Num (z : Z)
  | UPlus (e : expr)
  | UMinus (e : expr)
  | Bin (op : binop) (l r : expr).

(** Python's grammar, restricted to the fragment:
    sum := term (('+'|'-') term)*,  term := factor (('*'|'//'|'%') factor)*,
    factor := ('+'|'-') factor | power,  power := atom ['**' factor],
    atom := NUMBER | '(' sum ')'. *)
Fixpoint parse_sum (n : nat) (ts : list token) : option (expr * list token) :=
  match n with
  | O => None
  | S n => '(e, r) ← parse_term n ts; sum_loop n e r
  end
with sum_loop (n : nat) (acc : expr) (ts : list token) : option (expr * list token) :=
  match n with
  | O => None
  | S n =>
      match ts with
      | TPlus :: r => '(e, r') ← parse_term n r; sum_loop n (Bin Add acc e) r'
      | TMinus :: r => '(e, r') ← parse_term n r; sum_loop n (Bin Sub acc e) r'
      | _ => Some (acc, ts)
      end
  end
with parse_term (n : nat) (ts : list token) : option (expr * list token) :=
  match n with
  | O => None
  | S n => '(e, r) ← parse_factor n ts; term_loop n e r
  end
with term_loop (n : nat) (acc : expr) (ts : list token) : option (expr * list token) :=
  match n with
  | O => None
  | S n =>
      match ts with
      | TStar :: r => '(e, r') ← parse_factor n r; term_loop n (Bin Mul acc e) r'
      | TDSlash :: r => '(e, r') ← parse_factor n r; term_loop n (Bin FloorDiv acc e) r'
      | TPercent :: r => '(e, r') ← parse_factor n r; term_loop n (Bin Mod acc e) r'
      | _ => Some (acc, ts)
      end
  end
with parse_factor (n : nat) (ts : list token) : option (expr * list token) :=
  match n with
  | O => None
  | S n =>
      match ts with
      | TPlus :: r => '(e, r') ← parse_factor n r; Some (UPlus e, r')
      | TMinus :: r => '(e, r') ← parse_factor n r; Some (UMinus e, r')
      | _ => parse_power n ts
      end
  end
with parse_power (n : nat) (ts : list token) : option (expr * list token) :=
  match n with
  | O => None
  | S n =>
      '(b, r) ← parse_atom n ts;
      match r with
      | TDStar :: r' => '(e, r'') ← parse_factor n r'; Some (Bin Pow b e, r'')
      | _ => Some (b, r)
      end
  end
with parse_atom (n : nat) (ts : list token) : option (expr * list token) :=
  match n with
  | O => None
  | S n =>
      match ts with
      | TNum z :: r => Some (Num z, r)
      | TLParen :: r =>
          '(e, r') ← parse_sum n r;
          match r' with
          | TRParen :: r'' => Some (e, r'')
          | _ => None
          end
      | _ => None
      end
  end.

(** The value of an expression of the fragment: an integer, a
    ZeroDivisionError, or something the fragment does not cover (a negative
    exponent makes a float). *)
Inductive value :=
  | VInteger (z : Z)
  | VZeroDivision
  | VBeyond.

Definition eval_binop (op : binop) (a b : Z) : value :=
  match op with
  | Add => VInteger (a + b)
  | Sub => VInteger (a - b)
  | Mul => VInteger (a * b)
  | FloorDiv => if bool_decide (b = 0%Z) then VZeroDivision else VInteger (a `div` b)
  | Mod => if bool_decide (b = 0%Z) then VZeroDivision else VInteger (a `mod` b)
  | Pow => if bool_decide (b < 0)%Z then VBeyond else VInteger (a ^ b)
  end.

(** Operands are evaluated left to right; the first failure wins. *)
Fixpoint eval_expr (e : expr) : value :=
  match e with
  | Num z => VInteger z
  | UPlus e => eval_expr e
  | UMinus e =>
      match eval_expr e with
      | VInteger z => VInteger (- z)
      | v => v
      end
  | Bin op l r =>
      match eval_expr l with
      | VInteger a =>
          match eval_expr r with
          | VInteger b => eval_binop op a b
          | v => v
          end
      | v => v
      end
  end.

Definition is_binary_operator (t : token) : bool :=
  match t with
  | TPlus | TMinus | TStar | TDStar | TDSlash | TPercent => true
  | _ => false
  end.

(** Token lists that no Python expression has: the empty one, and those
    ending in an operator. *)
Definition surely_malformed (ts : list token) : bool :=
  match last ts with
  | None => true
  | Some t => is_binary_operator t
  end.

(** An integer is kept inside the fragment while its decimal text stays
    within the limit on int-to-str conversion. *)
Definition printable (z : Z) : bool :=
  bool_decide (Z.abs z < 10 ^ Z.of_nat int_max_str_digits)%Z.

(** A Python value as the tools produce them: a string, an integer, or
    another object, of a type [O] the embedding does not look into. *)
Inductive pyresult (O : Type) :=
  | PStr (s : string)
  | PInt (z : Z)
  | PObj (o : O).
Arguments PStr {O} s.
Arguments PInt {O} z.
Arguments PObj {O} o.

(** The names an [eval] can see: those of the calling module ([eval(s)]), or
    none at all ([eval(s, {"__builtins__": {}}, {})]).  Inside the fragment
    no name is looked up, so the two agree there. *)
Inductive namespace :=
  | Globals
  | NoBuiltins.

(** What the interpreter does outside the fragment: [eval_beyond] is [eval]
    there, [str_obj] is [str] on the objects other than strings and integers,
    [exn_text] is [str] on an exception. *)
Class Interpreter := {
  pyobj : Type;
  eval_beyond : namespace → string → outcome (pyresult pyobj);
  str_obj : pyobj → outcome string;
  exn_text : exn → string;
}.

Definition parse_fuel (ts : list token) : nat := 8 * length ts + 8.

(** [eval(s)], [eval(s, {"__builtins__": {}}, {})] *)
Definition eval `{Interpreter} (ns : namespace) (s : string) : outcome (pyresult pyobj) :=
  match tokenize (S (String.length s)) s with
  | None => eval_beyond ns s
  | Some ts =>
      if bool_decide (max_tokens < length ts) then eval_beyond ns s else
      if surely_malformed ts then Raised SyntaxError else
      match parse_sum (parse_fuel ts) ts with
      | Some (e, []) =>
          match eval_expr e with
          | VInteger z =>
              if printable z then Returned (PInt z) else eval_beyond ns s
          | VZeroDivision => Raised ZeroDivisionError
          | VBeyond => eval_beyond ns s
          end
      | _ => eval_beyond ns s
      end
  end.

(** [str(v)], as an f-string field [{v}] renders it. *)
Definition str `{Interpreter} (v : pyresult pyobj) : outcome string :=
  match v with
  | PStr s => Returned s
  | PInt z => Returned (pretty z)
  | PObj o => str_obj o
  end.

End Py.

(* --------------------------------------------------------------------- *)

Module Graph.
Import Py.

(** The graph runtime.  The sources import it from the langgraph package and
    only build graphs ([StateGraph], [add_node], [set_entry_point],
    [add_conditional_edges], [add_edge]) and run them ([compile],
    [invoke]). *)

(** Where an edge leads: a node, or the terminal sentinel [END]. *)
Inductive target :=
  | Node (name : string)
  | END.

Section Runtime.
Context {V : Type}.

(** A key of the state schema.  [reducer] is the function given in
    [Annotated[type, function]], if any; [start] is the value the channel
    holds before anything is written to it, if it has one. *)
Record channel := {
  key : string;
  reducer : option (V → V → outcome V);
  start : option V;
}.

(** Modelled from the spec: merging a node's update into the state: "merged
    into the running state by field-wise overwrite (for scalar/record
    fields) or append (for the message log)".  A key declared with a
    reducer takes [reducer old update]; a key declared without one takes
    the update; a key the update does not mention keeps its value. *)
Definition write_channel (update : gmap string V) (c : channel)
    (st : gmap string V) : outcome (gmap string V) :=
  match update !! key c with
  | None => Returned st
  | Some v =>
      match reducer c, st !! key c with
      | Some f, Some old => new ← f old v; Returned (<[key c := new]> st)
      | _, _ => Returned (<[key c := v]> st)
      end
  end.

Fixpoint apply_writes (schema : list channel) (update st : gmap string V)
    : outcome (gmap string V) :=
  match schema with
  | [] => Returned st
  | c :: schema' => st' ← write_channel update c st; apply_writes schema' update st'
  end.

Definition blank (schema : list channel) : gmap string V :=
  foldr (fun c st => match start c with Some v => <[key c := v]> st | None => st end)
        ∅ schema.

Inductive routing :=
  | Edge (t : target)
  | Branch (path : gmap string V → outcome string) (path_map : gmap string target).

Record StateGraph := {
  schema : list channel;
  nodes : gmap string (gmap string V → outcome (gmap string V));
  entry_point : option string;
  edges : gmap string routing;
}.

Definition new (schema : list channel) : StateGraph :=
  {| schema := schema; nodes := ∅; entry_point := None; edges := ∅ |}.

Definition add_node (name : string)
    (action : gmap string V → outcome (gmap string V)) (g : StateGraph) : StateGraph :=
  {| schema := schema g; nodes := <[name := action]> (nodes g);
     entry_point := entry_point g; edges := edges g |}.

Definition set_entry_point (name : string) (g : StateGraph) : StateGraph :=
  {| schema := schema g; nodes := nodes g;
     entry_point := Some name; edges := edges g |}.

Definition add_conditional_edges (source : string)
    (path : gmap string V → outcome string) (path_map : gmap string target)
    (g : StateGraph) : StateGraph :=
  {| schema := schema g; nodes := nodes g; entry_point := entry_point g;
     edges := <[source := Branch path path_map]> (edges g) |}.

Definition add_edge (source : string) (t : target) (g : StateGraph) : StateGraph :=
  {| schema := schema g; nodes := nodes g; entry_point := entry_point g;
     edges := <[source := Edge t]> (edges g) |}.

(** How a run ends. *)
Inductive ending :=
  | Finished (st : gmap string V)
  | Failed (e : exn)
  | Unroutable (node label : string)
  | StepLimit
  | Invalid.

Inductive step_result :=
  | Goto (t : target) (st : gmap string V)
  | Stop (e : ending).

(** Modelled from the spec: the execution loop of the graph runtime, which is
    not in the sources.  It is the loop of the spec's section 4.1: invoke the
    handler of the current node on the current state, merge the update it
    returns, get the outcome label (fixed for a plain edge, from the router
    applied to the merged state for a conditional one), resolve the label
    through the edge map of the node, stop at the terminal sentinel, give up
    when the step limit is reached.  A label with no entry in the edge map
    ends the run with [Unroutable].  An exception raised by a handler, a
    reducer or a router ends the run with [Failed]: the package lets it
    propagate to the caller of [invoke]. *)
Definition resolve (g : StateGraph) (n : string) (st : gmap string V) : step_result :=
  match edges g !! n with
  | None => Stop Invalid
  | Some (Edge t) => Goto t st
  | Some (Branch path path_map) =>
      match path st with
      | Raised e => Stop (Failed e)
      | Returned label =>
          match path_map !! label with
          | Some t => Goto t st
          | None => Stop (Unroutable n label)
          end
      end
  end.

Definition step (g : StateGraph) (n : string) (st : gmap string V) : step_result :=
  match nodes g !! n with
  | None => Stop Invalid
  | Some action =>
      match action st with
      | Raised e => Stop (Failed e)
      | Returned update =>
          match apply_writes (schema g) update st with
          | Raised e => Stop (Failed e)
          | Returned st' => resolve g n st'
          end
      end
  end.

(** [run g limit n st trace]: at most [limit] node invocations from node
    [n]; [trace] lists the nodes invoked so far, in order. *)
Fixpoint run (g : StateGraph) (limit : nat) (n : string) (st : gmap string V)
    (trace : list string) : list string * ending :=
  match limit with
  | O => (trace, StepLimit)
  | S limit' =>
      match step g n st with
      | Stop e => (trace ++ [n], e)
      | Goto END st' => (trace ++ [n], Finished st')
      | Goto (Node m) st' => run g limit' m st' (trace ++ [n])
      end
  end.

(** The default step limit of the package. *)
Definition recursion_limit : nat := 25.

(** [g.compile().invoke(input)]: the input is written to the blank
    channels, then the run starts at the entry point. *)
Definition invoke (g : StateGraph) (input : gmap string V) : list string * ending :=
  match entry_point g with
  | None => ([], Invalid)
  | Some n =>
      match apply_writes (schema g) input (blank (schema g)) with
      | Raised e => ([], Failed e)
      | Returned st => run g recursion_limit n st []
      end
  end.

End Runtime.

Arguments channel : clear implicits.
Arguments routing : clear implicits.
Arguments StateGraph : clear implicits.
Arguments ending : clear implicits.
Arguments step_result : clear implicits.

End Graph.

(* --------------------------------------------------------------------- *)

Module ReactAgent.
Import Py Graph.

(** A message: the dict [{"role": ..., "content": ...}]. *)
Record message := { role : string; content : string }.

(** The values the state of this script holds. *)
Inductive pyval :=
  | VInt (z : Z)
  | VBool (b : bool)
  | VList (ms : list message).

(** [llm.invoke(prompt).content].  The prompt is fixed text around the tool
    names and the message history, so the reply is taken as a function of
    the value of [messages]; the call may raise. *)
Class Reasoning := { llm_invoke : pyval → outcome string }.

Section Script.
Context `{Interpreter} `{Reasoning}.

(** 1. tools *)
Definition search_tool (query : string) : string :=
  "搜索结果: " +:+ query +:+ " 的相关信息...".

Definition calculator_tool (expression : string) : outcome (pyresult pyobj) :=
  eval Globals expression.

Record Tool := {
  name : string;
  func : string → outcome (pyresult pyobj);
  description : string;
}.

Definition tools : list Tool := [
  {| name := "Search"; func := fun q => Returned (PStr (search_tool q));
     description := "可以搜索查询互联网上的信息" |};
  {| name := "Calculator"; func := calculator_tool;
     description := "计算数学表达式" |}
].

(** 2. state: [messages: Annotated[list, operator.add]], [iterations: int] *)
Definition as_int (v : pyval) : option Z :=
  match v with
  | VInt z => Some z
  | VBool b => Some (Z.b2z b)
  | VList _ => None
  end.

(** [operator.add a b], that is [a + b] *)
Definition operator_add (a b : pyval) : outcome pyval :=
  match a, b with
  | VList x, VList y => Returned (VList (x ++ y))
  | _, _ =>
      match as_int a, as_int b with
      | Some x, Some y => Returned (VInt (x + y))
      | _, _ => Raised TypeError
      end
  end.

(** [a >= b] against an integer *)
Definition ge_int (a : pyval) (b : Z) : outcome bool :=
  match as_int a with
  | Some x => Returned (bool_decide (b ≤ x)%Z)
  | None => Raised TypeError
  end.

Definition ReActState : list (channel pyval) := [
  {| key := "messages"; reducer := Some operator_add; start := Some (VList []) |};
  {| key := "iterations"; reducer := None; start := None |}
].

(** [state[k]] *)
Definition getitem (state : gmap string pyval) (k : string) : outcome pyval :=
  match state !! k with
  | Some v => Returned v
  | None => Raised (KeyError k)
  end.

(** [v[-1]['content']] *)
Definition last_content (v : pyval) : outcome string :=
  match v with
  | VList ms =>
      match last ms with
      | Some m => Returned (content m)
      | None => Raised IndexError
      end
  | _ => Raised TypeError
  end.

(** 3. agent node *)
Definition agent_node (state : gmap string pyval) : outcome (gmap string pyval) :=
  messages ← getitem state "messages";
  response ← llm_invoke messages;
  iterations ← getitem state "iterations";
  iterations' ← operator_add iterations (VInt 1);
  Returned {[ "messages" := VList [{| role := "assistant"; content := response |}];
              "iterations" := iterations' ]}.

(** [last_message.split("Action Input:")[-1].strip()] *)
Definition action_input (last_message : string) : string :=
  strip (last_piece (split last_message "Action Input:")).

(** The [result] variable of [tool_node]. *)
Definition tool_result (last_message : string) : outcome (pyresult pyobj) :=
  if contains "Action: Search" last_message then
    Returned (PStr (search_tool (action_input last_message)))
  else if contains "Action: Calculator" last_message then
    calculator_tool (action_input last_message)
  else
    Returned (PStr "无法识别的工具").

(** [f"Observation: {result}"] *)
Definition observation (last_message : string) : outcome string :=
  result ← tool_result last_message;
  text ← str result;
  Returned ("Observation: " +:+ text).

Definition tool_node (state : gmap string pyval) : outcome (gmap string pyval) :=
  messages ← getitem state "messages";
  last_message ← last_content messages;
  obs ← observation last_message;
  Returned {[ "messages" := VList [{| role := "tool"; content := obs |}] ]}.

(** 4. routing *)
Definition should_continue (state : gmap string pyval) : outcome string :=
  messages ← getitem state "messages";
  last_message ← last_content messages;
  if contains "Final Answer" last_message then Returned "end"
  else
    iterations ← getitem state "iterations";
    stop ← ge_int iterations 5;
    if stop : bool then Returned "end" else Returned "continue".

(** 5. the graph *)
Definition agent_path_map : gmap string target :=
  {[ "continue" := Node "tools"; "end" := END ]}.

Definition workflow : StateGraph pyval :=
  add_edge "tools" (Node "agent")
    (add_conditional_edges "agent" should_continue agent_path_map
       (set_entry_point "agent"
          (add_node "tools" tool_node
             (add_node "agent" agent_node
                (new ReActState))))).

(** 6. [app.invoke({"messages": [...], "iterations": 0})] *)
Definition initial (question : string) : gmap string pyval :=
  {[ "messages" := VList [{| role := "user"; content := question |}];
     "iterations" := VInt 0 ]}.

Definition question : string := "搜索 2025.10.31的新闻并计算 2**2+10".

Definition app_invoke (input : gmap string pyval) : list string * ending pyval :=
  invoke workflow input.

(** The tool a reply names, in the format the prompt of [agent_node] lays
    down ("Action: [工具名称]" on a line of its own): the text between the
    first "Action:" and the end of that line, stripped. *)
Definition requested_tool (reply : string) : option string :=
  match split reply "Action:" with
  | _ :: after :: _ =>
      Some (strip (default "" (head (split after (String (ascii_of_nat 10) "")))))
  | _ => None
  end.

Definition unrecognized_observation : string := "Observation: 无法识别的工具".

(** A state holding a message list and an integer counter. *)
Definition state_of (messages : list message) (iterations : Z) : gmap string pyval :=
  {[ "messages" := VList messages; "iterations" := VInt iterations ]}.

Definition assistant (reply : string) : message :=
  {| role := "assistant"; content := reply |}.

Definition tool_message (obs : string) : message :=
  {| role := "tool"; content := obs |}.

End Script.

End ReactAgent.

(* --------------------------------------------------------------------- *)

Module ReactAgentV2.
Import Py.

Section Script.
Context `{Interpreter}.

Definition calculator_tool (expression : string) : outcome string :=
  try_except
    (result ← eval NoBuiltins expression;
     text ← str result;
     Returned ("📊 计算结果: " +:+ expression +:+ " = " +:+ text))
    (fun e => Returned ("❌ 计算错误: " +:+ exn_text e)).

End Script.

End ReactAgentV2.

Module GoogleSearchSimple.
Import Py.

Section Script.
Context `{Interpreter}.

Definition calculator (expression : string) : outcome string :=
  try_except
    (result ← eval Globals expression;
     text ← str result;
     Returned ("计算结果: " +:+ text))
    (fun e => Returned ("计算错误: " +:+ exn_text e)).

End Script.

End GoogleSearchSimple.

(* --------------------------------------------------------------------- *)

Module Travel.
Import Py Graph.

(** The values of [EnhancedTravelState]: strings, a boolean, and lists and
    dicts, which the routing never looks into; [D] is the type of these. *)
Inductive pyval (D : Type) :=
  | VStr (s : string)
  | VBool (b : bool)
  | VData (d : D).
Arguments VStr {D} s.
Arguments VBool {D} b.
Arguments VData {D} d.

(** What the handlers get from outside: each field stands for the part of a
    handler that reads the state, builds a prompt or a query, and calls the
    model or a tool; it gives the value the handler stores, or raises. *)
Class Services := {
  data : Type;
  empty_list : data;
  empty_dict : data;
  requirements_dialogue : gmap string (pyval data) → outcome data;
  weather_lookup : gmap string (pyval data) → outcome data;
  attraction_search : gmap string (pyval data) → outcome data;
  restaurant_search : gmap string (pyval data) → outcome data;
  hotel_search : gmap string (pyval data) → outcome data;
  schedule_dialogue : gmap string (pyval data) → outcome unit;
  budget_table : gmap string (pyval data) → outcome data;
  plan_text : gmap string (pyval data) → outcome string;
}.

Section Script.
Context `{Services}.

#[local] Abbreviation state := (gmap string (pyval data)).

Definition EnhancedTravelState : list (channel (pyval data)) :=
  (fun k => {| key := k; reducer := None; start := None |}) <$>
  [ "destination"; "duration"; "budget"; "preferences"; "travel_type";
    "weather_info"; "attractions"; "restaurants"; "hotels";
    "daily_schedule"; "budget_breakdown"; "final_plan";
    "messages"; "current_step"; "user_feedback"; "revision_needed" ].

(** Each handler returns [{**state, key: value, ...}]. *)
Definition collect_requirements (st : state) : outcome state :=
  messages ← requirements_dialogue st;
  Returned (<["messages" := VData messages]>
            (<["current_step" := VStr "weather_check"]> st)).

Definition check_weather (st : state) : outcome state :=
  weather_data ← weather_lookup st;
  Returned (<["current_step" := VStr "find_attractions"]>
            (<["weather_info" := VData weather_data]> st)).

Definition find_attractions (st : state) : outcome state :=
  attractions ← attraction_search st;
  Returned (<["current_step" := VStr "find_restaurants"]>
            (<["attractions" := VData attractions]> st)).

Definition find_restaurants (st : state) : outcome state :=
  restaurants ← restaurant_search st;
  Returned (<["current_step" := VStr "find_hotels"]>
            (<["restaurants" := VData restaurants]> st)).

Definition find_hotels (st : state) : outcome state :=
  hotels ← hotel_search st;
  Returned (<["current_step" := VStr "create_schedule"]>
            (<["hotels" := VData hotels]> st)).

Definition create_schedule (st : state) : outcome state :=
  _ ← schedule_dialogue st;
  Returned (<["current_step" := VStr "calculate_budget"]>
            (<["daily_schedule" := VData empty_list]> st)).

Definition calculate_budget (st : state) : outcome state :=
  budget_breakdown ← budget_table st;
  Returned (<["current_step" := VStr "generate_plan"]>
            (<["budget_breakdown" := VData budget_breakdown]> st)).

Definition generate_final_plan (st : state) : outcome state :=
  final_plan ← plan_text st;
  Returned (<["current_step" := VStr "review"]>
            (<["final_plan" := VStr final_plan]> st)).

Definition review_plan (st : state) : outcome state :=
  Returned (<["revision_needed" := VBool false]>
            (<["current_step" := VStr "end"]> st)).

Definition step_map : gmap string string :=
  {[ "collect" := "weather";
     "weather_check" := "attractions";
     "find_attractions" := "restaurants";
     "find_restaurants" := "hotels";
     "find_hotels" := "schedule";
     "create_schedule" := "budget";
     "calculate_budget" := "generate";
     "generate_plan" := "review";
     "review" := "end";
     "end" := "end" ]}.

(** [step_map.get(current, "end")]: a string is looked up, a boolean is no
    key of the map, a list or a dict cannot be hashed. *)
Definition step_map_get (current : pyval data) : outcome string :=
  match current with
  | VStr c => Returned (default "end" (step_map !! c))
  | VBool _ => Returned "end"
  | VData _ => Raised TypeError
  end.

Definition route_next (st : state) : outcome string :=
  let current := default (VStr "collect") (st !! "current_step") in
  next_step ← step_map_get current;
  Returned (if String.eqb next_step "end" then "end" else next_step).

Definition collect_path_map : gmap string target :=
  {[ "weather" := Node "weather"; "end" := END ]}.

Definition workflow : StateGraph (pyval data) :=
  add_conditional_edges "review" route_next {[ "end" := END ]}
  (add_conditional_edges "generate" route_next {[ "review" := Node "review"; "end" := END ]}
  (add_conditional_edges "budget" route_next {[ "generate" := Node "generate"; "end" := END ]}
  (add_conditional_edges "schedule" route_next {[ "budget" := Node "budget"; "end" := END ]}
  (add_conditional_edges "hotels" route_next {[ "schedule" := Node "schedule"; "end" := END ]}
  (add_conditional_edges "restaurants" route_next {[ "hotels" := Node "hotels"; "end" := END ]}
  (add_conditional_edges "attractions" route_next {[ "restaurants" := Node "restaurants"; "end" := END ]}
  (add_conditional_edges "weather" route_next {[ "attractions" := Node "attractions"; "end" := END ]}
  (add_conditional_edges "collect" route_next collect_path_map
  (set_entry_point "collect"
  (add_node "review" review_plan
  (add_node "generate" generate_final_plan
  (add_node "budget" calculate_budget
  (add_node "schedule" create_schedule
  (add_node "hotels" find_hotels
  (add_node "restaurants" find_restaurants
  (add_node "attractions" find_attractions
  (add_node "weather" check_weather
  (add_node "collect" collect_requirements
  (new EnhancedTravelState))))))))))))))))))).

Definition initial_state (destination duration budget : string)
    (preferences : data) (travel_type : string) : state :=
  list_to_map [
    ("destination", VStr destination);
    ("duration", VStr duration);
    ("budget", VStr budget);
    ("preferences", VData preferences);
    ("travel_type", VStr travel_type);
    ("weather_info", VData empty_dict);
    ("attractions", VData empty_list);
    ("restaurants", VData empty_list);
    ("hotels", VData empty_list);
    ("daily_schedule", VData empty_list);
    ("budget_breakdown", VData empty_dict);
    ("final_plan", VStr "");
    ("messages", VData empty_list);
    ("current_step", VStr "collect");
    ("user_feedback", VStr "");
    ("revision_needed", VBool false) ].

Definition build_and_run_workflow (destination duration budget : string)
    (preferences : data) (travel_type : string)
    : list string * ending (pyval data) :=
  invoke workflow (initial_state destination duration budget preferences travel_type).

End Script.

End Travel.

(* --------------------------------------------------------------------- *)

Module MultiAgentAsync.
Import Py.

(** What the script gets from outside: the clock ([clock n] is the value of
    the n-th [datetime.now()] of the run), time arithmetic and formatting,
    the executors of the agents ([executor.invoke({"input": task})['output']],
    by agent name and task), and the model of the summarizer
    ([llm.invoke(prompt).content]). *)
Class Environment := {
  time : Type;
  seconds : Type;
  clock : nat → time;
  total_seconds : time → time → seconds;
  zero : seconds;
  format_2f : seconds → string;
  executor_invoke : string → string → outcome string;
  llm_invoke : string → outcome string;
}.

Section Script.
Context `{Interpreter} `{Environment}.

(** The result dict of an agent. *)
Record TaskResult := {
  agent : string;
  task : string;
  result : string;
  duration : seconds;
  timestamp : time;
  success : bool;
}.

(** The effects of the script: the readings of the clock made so far and the
    prompts sent to the model of the summarizer, in order. *)
Record World := {
  readings : nat;
  prompts : list string;
}.

Definition M (A : Type) : Type := World → A * World.

#[global] Instance M_ret : MRet M := fun _ a w => (a, w).
#[global] Instance M_bind : MBind M := fun _ _ f m w =>
  let '(a, w') := m w in f a w'.

(** [datetime.now()] *)
Definition now : M time := fun w =>
  (clock (readings w), {| readings := S (readings w); prompts := prompts w |}).

(** [await asyncio.to_thread(self.llm.invoke, prompt)] *)
Definition ask (prompt : string) : M (outcome string) := fun w =>
  (llm_invoke prompt, {| readings := readings w; prompts := prompts w ++ [prompt] |}).

(** The world after [n] more readings of the clock. *)
Definition advance (n : nat) (w : World) : World :=
  {| readings := readings w + n; prompts := prompts w |}.

(** A coroutine of the fan-out: it reads the clock, suspends on the work it
    awaits, and when resumed reads the clock again and returns or raises.
    It is given by its outcome as a function of the two readings. *)
Definition coroutine : Type := time → time → outcome TaskResult.

(** The limits both agents give their [AgentExecutor] in [__init__]; the
    second is in seconds.  They are limits of the executor: [ainvoke] itself
    waits for the executor call without any limit. *)
Definition max_iterations : nat := 3.

(** [ResearchAgent.ainvoke] and [AnalystAgent.ainvoke], which differ in what
    they print only. *)
Definition ainvoke (name task : string) : coroutine := fun start_time end_time =>
  try_except
    (output ← executor_invoke name task;
     Returned {| agent := name; task := task; result := output;
                 duration := total_seconds start_time end_time;
                 timestamp := end_time; success := true |})
    (fun e =>
     Returned {| agent := name; task := task;
                 result := "任务执行失败: " +:+ exn_text e;
                 duration := total_seconds start_time end_time;
                 timestamp := end_time; success := false |}).

(** [asyncio.gather] over the coroutines, with [return_exceptions=True].
    The event loop
    starts the coroutines in the order they were given, each running to its
    first suspension; it then resumes them in the order their awaited work
    completes: [order] lists the positions in that order.  Each result, or
    exception, goes to the slot of its position. *)
Fixpoint start_all (cos : list coroutine) : M (list (time → outcome TaskResult)) :=
  match cos with
  | [] => mret []
  | co :: cos' =>
      start_time ← now;
      rest ← start_all cos';
      mret (co start_time :: rest)
  end.

Fixpoint complete_all (pending : list (time → outcome TaskResult)) (order : list nat)
    (slots : list (option (outcome TaskResult))) : M (list (option (outcome TaskResult))) :=
  match order with
  | [] => mret slots
  | i :: order' =>
      match pending !! i with
      | Some resume =>
          end_time ← now;
          complete_all pending order' (<[i := Some (resume end_time)]> slots)
      | None => complete_all pending order' slots
      end
  end.

(** [None]: some coroutine never completed, the [await] does not resume. *)
Definition gather (cos : list coroutine) (order : list nat)
    : M (option (list (outcome TaskResult))) :=
  pending ← start_all cos;
  slots ← complete_all pending order (replicate (length cos) None);
  mret (mapM id slots).

(** The order in which the event loop completes [n] tasks it has started.
    Each task awaits work that ends (its executor call returns or raises),
    so each of them completes; which of those still pending is next is not
    fixed.  [choices] gives it step by step: the index, among the positions
    still pending, of the one to complete (taken modulo their number, and 0
    once the list is used up). *)
Fixpoint complete_next (pending : list nat) (choices : list nat) (fuel : nat) : list nat :=
  match fuel with
  | O => []
  | S fuel' =>
      let i := default 0 (head choices) `mod` length pending in
      match pending !! i with
      | Some p => p :: complete_next (delete i pending) (tail choices) fuel'
      | None => []
      end
  end.

Definition schedule (choices : list nat) (n : nat) : list nat :=
  complete_next (seq 0 n) choices n.

(** The loop over [enumerate(search_results)], from index [i]. *)
Fixpoint process_from (i : nat) (search_results : list (outcome TaskResult))
    : M (list TaskResult) :=
  match search_results with
  | [] => mret []
  | Raised e :: rest =>
      t ← now;
      processed ← process_from (S i) rest;
      mret ({| agent := "Agent-" +:+ pretty (i + 1); task := "搜索任务";
               result := "异常: " +:+ exn_text e; duration := zero;
               timestamp := t; success := false |} :: processed)
  | Returned r :: rest =>
      processed ← process_from (S i) rest;
      mret (r :: processed)
  end.

(** [str.join] *)
Fixpoint join (sep : string) (l : list string) : string :=
  match l with
  | [] => ""
  | [x] => x
  | x :: l' => x +:+ sep +:+ join sep l'
  end.

Definition newline : string := String (ascii_of_nat 10) "".

Definition summarizer_task : string := "整合所有结果".
Definition all_failed_text : string := "❌ 所有前置任务都失败了，无法生成报告".

Definition entry (r : TaskResult) : string :=
  "【" +:+ agent r +:+ "】" +:+ newline +:+ "任务: " +:+ task r +:+ newline +:+
  "结果:" +:+ newline +:+ result r +:+ newline +:+
  "耗时: " +:+ format_2f (duration r) +:+ "秒".

Definition report_prompt (combined_info : string) : string :=
  "请将以下多个智能体的工作结果整合成一份专业、结构化的研究报告：

" +:+ combined_info +:+ "

报告要求：
1. **执行摘要** (100字左右)
   - 简明扼要地概括核心发现
   
2. **关键发现** (分点列出3-5个要点)
   - 突出最重要的信息和洞察
   
3. **详细分析** (300-400字)
   - 深入分析各项发现的意义
   - 解释数据背后的趋势和模式
   
4. **结论和建议** (100-150字)
   - 提供可操作的建议
   - 指出未来发展方向

请使用专业的语言，保持逻辑清晰，使用适当的emoji和格式增强可读性。
".

(** [SummarizerAgent.ainvoke] *)
Definition summarizer_ainvoke (name : string) (results : list TaskResult) : M TaskResult :=
  start_time ← now;
  let successful_results := filter (fun r => success r = true) results in
  match successful_results with
  | [] =>
      t ← now;
      mret {| agent := name; task := summarizer_task; result := all_failed_text;
              duration := zero; timestamp := t; success := false |}
  | _ =>
      let combined_info := join (newline +:+ newline) (entry <$> successful_results) in
      response ← ask (report_prompt combined_info);
      end_time ← now;
      match response with
      | Returned content =>
          mret {| agent := name; task := summarizer_task; result := content;
                  duration := total_seconds start_time end_time;
                  timestamp := end_time; success := true |}
      | Raised e =>
          mret {| agent := name; task := summarizer_task;
                  result := "整合失败: " +:+ exn_text e;
                  duration := total_seconds start_time end_time;
                  timestamp := end_time; success := false |}
      end
  end.

(** [ResearchTeam]: the names given in [__init__], the three tasks of
    [research]. *)
Definition search_tasks (topic : string) : list coroutine := [
  ainvoke "搜索专家-1" ("搜索关于'" +:+ topic +:+ "'的最新信息和发展动态");
  ainvoke "搜索专家-2" ("搜索关于'" +:+ topic +:+ "'的技术细节、应用案例和实践经验");
  ainvoke "数据分析师" ("分析'" +:+ topic +:+ "'相关的数据趋势、市场规模和发展前景")
].

(** The fan-out of [research]: the gather and the loop after it. *)
Definition fan_out (cos : list coroutine) (order : list nat) : M (option (list TaskResult)) :=
  search_results ← gather cos order;
  match search_results with
  | None => mret None
  | Some search_results =>
      processed_results ← process_from 0 search_results;
      mret (Some processed_results)
  end.

Record Report := {
  topic : string;
  search_results : list TaskResult;
  final_summary : TaskResult;
  total_duration : seconds;
  report_timestamp : time;
  report_success : bool;
}.

Definition research (topic : string) (order : list nat) : M (option Report) :=
  overall_start ← now;
  processed_results ← fan_out (search_tasks topic) order;
  match processed_results with
  | None => mret None
  | Some processed_results =>
      summary_result ← summarizer_ainvoke "总结专家" processed_results;
      overall_end ← now;
      mret (Some {| topic := topic; search_results := processed_results;
                    final_summary := summary_result;
                    total_duration := total_seconds overall_start overall_end;
                    report_timestamp := overall_end;
                    report_success := success summary_result |})
  end.

End Script.

End MultiAgentAsync.

(* --------------------------------------------------------------------- *)

(** Concrete collaborators and inputs, for running the scripts. *)
Module Scenarios.
Import Py.

(** An interpreter whose [eval] knows nothing beyond the fragment. *)
Definition plain_interpreter : Interpreter := {|
  pyobj := Empty_set;
  eval_beyond := fun _ _ => Raised SyntaxError;
  str_obj := fun o => match o with end;
  exn_text := fun e =>
    match e with
    | SyntaxError => "invalid syntax"
    | ZeroDivisionError => "integer division or modulo by zero"
    | KeyError k => "'" +:+ k +:+ "'"
    | IndexError => "list index out of range"
    | TypeError => "unsupported operand type(s)"
    | Failure what => what
    end;
|}.

Definition user (question : string) : ReactAgent.message :=
  {| ReactAgent.role := "user"; ReactAgent.content := question |}.

(** Scenario B of the spec: the first reply asks for the calculator, the
    second gives the final answer. *)
Definition calculator_request : string :=
  "Thought: 需要计算
Action: Calculator
Action Input: 2**2+10".

Definition final_reply : string := "Final Answer: 14".

Definition scenario_B : ReactAgent.Reasoning := {|
  ReactAgent.llm_invoke := fun v =>
    match v with
    | ReactAgent.VList [_] => Returned calculator_request
    | _ => Returned final_reply
    end
|}.

(** A model that never gives a final answer and never names a tool. *)
Definition musing : string := "Thought: 还需要再想一想".

Definition never_final : ReactAgent.Reasoning := {|
  ReactAgent.llm_invoke := fun _ => Returned musing
|}.

Definition round : list ReactAgent.message :=
  [ ReactAgent.assistant musing;
    ReactAgent.tool_message ReactAgent.unrecognized_observation ].

(** The state [never_final] leaves behind. *)
Definition forced_stop_state : gmap string ReactAgent.pyval :=
  ReactAgent.state_of
    (user ReactAgent.question :: round ++ round ++ round ++ round
       ++ [ReactAgent.assistant musing]) 5.

(** A reply with both a tool directive and the final-answer marker. *)
Definition directive_and_answer : string :=
  "Action: Calculator
Action Input: 1//0
Final Answer: 42".

(** A reply naming a tool that is not registered. *)
Definition search_engine_request : string :=
  "Action: SearchEngine
Action Input: x".

(** Replies asking the calculator for an expression it cannot evaluate. *)
Definition division_by_zero_request : string :=
  "Action: Calculator
Action Input: 1//0".

(** A clock that ticks once per reading, executors of which the second
    search agent times out, a summarizer model that answers. *)
Definition ticking : MultiAgentAsync.Environment := {|
  MultiAgentAsync.time := nat;
  MultiAgentAsync.seconds := nat;
  MultiAgentAsync.clock := fun n => n;
  MultiAgentAsync.total_seconds := fun start_time end_time => end_time - start_time;
  MultiAgentAsync.zero := 0;
  MultiAgentAsync.format_2f := fun d => pretty d +:+ ".00";
  MultiAgentAsync.executor_invoke := fun name task =>
    if String.eqb name "搜索专家-2" then Raised (Failure "Request timed out.")
    else Returned ("完成: " +:+ task);
  MultiAgentAsync.llm_invoke := fun _ => Returned "研究报告";
|}.

Definition fresh : MultiAgentAsync.World :=
  {| MultiAgentAsync.readings := 0; MultiAgentAsync.prompts := [] |}.

(** The third task completes first, then the first, then the second. *)
Definition completion_order : list nat := [2; 0; 1].

Definition failed_result (name : string) : @MultiAgentAsync.TaskResult ticking :=
  {| MultiAgentAsync.agent := name; MultiAgentAsync.task := "搜索任务";
     MultiAgentAsync.result := "任务执行失败: Request timed out.";
     MultiAgentAsync.duration := 3 : @MultiAgentAsync.seconds ticking;
     MultiAgentAsync.timestamp := 7 : @MultiAgentAsync.time ticking;
     MultiAgentAsync.success := false |}.

(** Collaborators of the travel script that answer at once. *)
Definition obliging : Travel.Services := {|
  Travel.data := list string;
  Travel.empty_list := [];
  Travel.empty_dict := [];
  Travel.requirements_dialogue := fun _ => Returned ["需求"; "需求分析和建议"];
  Travel.weather_lookup := fun _ => Returned ["晴"];
  Travel.attraction_search := fun _ => Returned ["西湖"];
  Travel.restaurant_search := fun _ => Returned ["楼外楼"];
  Travel.hotel_search := fun _ => Returned ["湖滨酒店"];
  Travel.schedule_dialogue := fun _ => Returned tt;
  Travel.budget_table := fun _ => Returned ["约1900元/人"];
  Travel.plan_text := fun _ => Returned "杭州 3天2晚旅游攻略";
|}.

End Scenarios.

(* --------------------------------------------------------------------- *)

(** The log of a ReAct run read against its trace. *)
Module ReactLog.

(** The role of the message a node appends. *)
Definition role_of_node (node : string) : string :=
  if String.eqb node "agent" then "assistant" else "tool".

(** The number of Thinking steps of a trace. *)
Definition agent_steps (trace : list string) : nat :=
  length (filter (fun node => node = "agent") trace).

(** A run that came to an end by itself: it finished, or a node raised. *)
Definition ended {V : Type} (e : Graph.ending V) : Prop :=
  match e with
  | Graph.Finished _ | Graph.Failed _ => True
  | _ => False
  end.

End ReactLog.

(* --------------------------------------------------------------------- *)

(** The calculator of [multi_agent_async.py]. *)
Module AsyncTools.
Import Py.

(** [s.replace(old, new)] for a non-empty [old]: scan from the left, put
    [new] for every match and resume after it. *)
Fixpoint replace_from (old new : string) (skip : nat) (s : string) : string :=
  match s with
  | "" => ""
  | String c s' =>
      match skip with
      | S k => replace_from old new k s'
      | O =>
          if String.prefix old s
          then new +:+ replace_from old new (String.length old - 1) s'
          else String c (replace_from old new 0 s')
      end
  end.

Definition replace (s old new : string) : string := replace_from old new 0 s.

(** What the calculator gets from outside: [eval_allowed] is [eval] outside
    the arithmetic fragment when the only names it can see are those of
    [allowed_names] ([abs], [round], [min], [max], [sum], [pow]). *)
Class AllowedNames `{Interpreter} := {
  eval_allowed : string → outcome (pyresult pyobj);
}.

Section Script.
Context `{AllowedNames}.

(** [expression.replace("__", "").replace("import", "")] *)
Definition safe_expr (expression : string) : string :=
  replace (replace expression "__" "") "import" "".

(** [eval(s, allowed_names, {})]: the interpreter with [eval_allowed] for
    what lies outside the fragment. *)
Definition with_allowed_names : Interpreter := {|
  pyobj := pyobj;
  eval_beyond := fun _ s => eval_allowed s;
  str_obj := str_obj;
  exn_text := exn_text;
|}.

Definition calculator (expression : string) : outcome string :=
  try_except
    (result ← @eval with_allowed_names NoBuiltins (safe_expr expression);
     text ← str result;
     Returned ("计算结果: " +:+ text))
    (fun e => Returned ("计算错误: " +:+ exn_text e)).

End Script.

End AsyncTools.

(* --------------------------------------------------------------------- *)

(** More collaborators for running the scripts. *)
Module MoreScenarios.
Import Py.

(** Executors that are all out of reach. *)
Definition all_down : MultiAgentAsync.Environment := {|
  MultiAgentAsync.time := nat;
  MultiAgentAsync.seconds := nat;
  MultiAgentAsync.clock := fun n => n;
  MultiAgentAsync.total_seconds := fun start_time end_time => end_time - start_time;
  MultiAgentAsync.zero := 0;
  MultiAgentAsync.format_2f := fun d => pretty d +:+ ".00";
  MultiAgentAsync.executor_invoke := fun _ _ => Raised (Failure "Connection error.");
  MultiAgentAsync.llm_invoke := fun _ => Returned "研究报告";
|}.

(** A result that succeeded, under the clock of [Scenarios.ticking]. *)
Definition succeeded_result (name : string) : @MultiAgentAsync.TaskResult Scenarios.ticking :=
  {| MultiAgentAsync.agent := name; MultiAgentAsync.task := "搜索任务";
     MultiAgentAsync.result := "完成";
     MultiAgentAsync.duration := 2 : @MultiAgentAsync.seconds Scenarios.ticking;
     MultiAgentAsync.timestamp := 5 : @MultiAgentAsync.time Scenarios.ticking;
     MultiAgentAsync.success := true |}.





(** An [eval] that knows nothing beyond the fragment, whatever names it is
    given. *)
Definition arithmetic_only : @AsyncTools.AllowedNames Scenarios.plain_interpreter := {|
  AsyncTools.eval_allowed := fun _ => Raised SyntaxError
|}.

(** A reply with both directives, the calculator one on an expression that
    cannot be evaluated. *)
Definition both_directives : string :=
  "Action: Search
Action: Calculator
Action Input: 1//0".

End MoreScenarios.

(* ===================================================================== *)
(** * Part II: properties                                                  *)
(* ===================================================================== *)

(** ** The graph runtime *)

Section GraphFacts.
Import Py Graph.
Context {V : Type}.

Lemma run_unfold (g : StateGraph V) limit n st trace :
  run g (S limit) n st trace
  = match step g n st with
    | Stop e => (trace ++ [n], e)
    | Goto END st' => (trace ++ [n], Finished st')
    | Goto (Node m) st' => run g limit m st' (trace ++ [n])
    end.
Proof. reflexivity. Qed.

(** Whatever state a step hands on is a state into which the whole update of
    the node has been merged. *)
Lemma step_merges_whole_update (g : StateGraph V) n (st st' : gmap string V) t :
  step g n st = Goto t st' →
  ∃ action update,
    nodes g !! n = Some action ∧ action st = Returned update
    ∧ apply_writes (schema g) update st = Returned st'.
Proof.
  unfold step, resolve. intros Hstep.
  destruct (nodes g !! n) as [action|]; [| done].
  destruct (action st) as [update|] eqn:Hact; [| done].
  destruct (apply_writes (schema g) update st) as [merged|] eqn:Hmerge; [| done].
  exists action, update. split_and!; [done | done |].
  destruct (edges g !! n) as [[t'|path path_map]|]; [| | done].
  - by injection Hstep as _ ->.
  - destruct (path merged) as [label|]; [| done].
    destruct (path_map !! label); [| done]. by injection Hstep as _ ->.
Qed.

(** A schema without reducers: every key of the schema that the update
    mentions takes the value of the update, nothing else changes, and the
    merge cannot raise. *)
Lemma apply_writes_plain (schema : list (channel V)) :
  Forall (fun c => reducer c = None) schema →
  ∀ update st : gmap string V,
  ∃ st', apply_writes schema update st = Returned st'
    ∧ ∀ k, st' !! k
           = match update !! k with
             | Some v => if bool_decide (k ∈ key <$> schema) then Some v else st !! k
             | None => st !! k
             end.
Proof.
  induction 1 as [|c schema Hc _ IH]; intros update st.
  - exists st. split; [done |]. intros k. by destruct (update !! k).
  - cbn [apply_writes]. unfold write_channel at 1. rewrite Hc.
    destruct (update !! key c) as [v0|] eqn:Hv0.
    + destruct (IH update (<[key c := v0]> st)) as (st' & Hrun & Hst').
      exists st'. split.
      { unfold mbind, outcome_bind. by destruct (st !! key c). }
      intros k. rewrite Hst'. destruct (update !! k) as [v|] eqn:Hv.
      * rewrite fmap_cons. destruct (decide (k = key c)) as [-> | Hne].
        -- rewrite (bool_decide_true (key c ∈ key c :: _)) by apply list_elem_of_here.
           rewrite lookup_insert_eq.
           replace v with v0 by congruence. by case_bool_decide.
        -- rewrite lookup_insert_ne by done.
           case_bool_decide as Hin.
           ++ by rewrite bool_decide_true by by apply list_elem_of_further.
           ++ rewrite bool_decide_false; [done |].
              by intros [?|?]%elem_of_cons.
      * destruct (decide (k = key c)) as [-> | Hne]; [congruence |].
        by rewrite lookup_insert_ne.
    + destruct (IH update st) as (st' & Hrun & Hst').
      exists st'. split; [done |].
      intros k. rewrite Hst'. destruct (update !! k) as [v|] eqn:Hv; [| done].
      rewrite fmap_cons. case_bool_decide as Hin.
      * by rewrite bool_decide_true by by apply list_elem_of_further.
      * rewrite bool_decide_false; [done |].
        intros [->|?]%elem_of_cons; [congruence | done].
Qed.

End GraphFacts.

(** ** The ReAct graph of [ReactAgent.py] *)

Section ReactFacts.
Import Py Graph ReactAgent.
Context `{Interpreter} `{Reasoning}.

Lemma workflow_schema : schema workflow = ReActState.
Proof. reflexivity. Qed.

Lemma workflow_agent : nodes workflow !! "agent" = Some agent_node.
Proof. cbn. rewrite lookup_insert_ne by done. apply lookup_insert_eq. Qed.

Lemma workflow_tools : nodes workflow !! "tools" = Some tool_node.
Proof. cbn. apply lookup_insert_eq. Qed.

Lemma workflow_agent_edges :
  edges workflow !! "agent" = Some (Branch should_continue agent_path_map).
Proof. cbn. rewrite lookup_insert_ne by done. apply lookup_insert_eq. Qed.

Lemma workflow_tools_edge : edges workflow !! "tools" = Some (Edge (Node "agent")).
Proof. cbn. apply lookup_insert_eq. Qed.

Lemma path_map_end : agent_path_map !! "end" = Some END.
Proof. reflexivity. Qed.

Lemma path_map_continue : agent_path_map !! "continue" = Some (Node "tools").
Proof. reflexivity. Qed.

Lemma state_of_messages ms n : state_of ms n !! "messages" = Some (VList ms).
Proof. reflexivity. Qed.

Lemma state_of_iterations ms n : state_of ms n !! "iterations" = Some (VInt n).
Proof. reflexivity. Qed.

(** Merging the update of [agent_node]. *)
Lemma merge_agent_update ms n reply k :
  apply_writes ReActState
    {[ "messages" := VList [assistant reply]; "iterations" := VInt k ]}
    (state_of ms n)
  = Returned (state_of (ms ++ [assistant reply]) k).
Proof. reflexivity. Qed.

(** Merging the update of [tool_node]. *)
Lemma merge_tool_update ms n obs :
  apply_writes ReActState {[ "messages" := VList [tool_message obs] ]} (state_of ms n)
  = Returned (state_of (ms ++ [tool_message obs]) n).
Proof. reflexivity. Qed.

Lemma agent_node_state_of ms n reply :
  llm_invoke (VList ms) = Returned reply →
  agent_node (state_of ms n)
  = Returned {[ "messages" := VList [assistant reply]; "iterations" := VInt (n + 1) ]}.
Proof.
  intros Hllm. unfold agent_node, getitem, mbind, outcome_bind.
  rewrite state_of_messages, Hllm, state_of_iterations. reflexivity.
Qed.

Lemma last_snoc_content ms (m : message) : last_content (VList (ms ++ [m])) = Returned (content m).
Proof. unfold last_content. by rewrite last_snoc. Qed.

Lemma should_continue_final (st : gmap string pyval) ms m :
  st !! "messages" = Some (VList ms) → last ms = Some m →
  contains "Final Answer" (content m) = true →
  should_continue st = Returned "end".
Proof.
  intros Hst Hlast Hfinal.
  unfold should_continue, getitem, last_content, mbind, outcome_bind.
  by rewrite Hst, Hlast, Hfinal.
Qed.

Lemma should_continue_counter ms m n :
  last ms = Some m → contains "Final Answer" (content m) = false →
  should_continue (state_of ms n)
  = Returned (if bool_decide (5 ≤ n)%Z then "end" else "continue").
Proof.
  intros Hlast Hfinal.
  unfold should_continue, getitem, last_content, mbind, outcome_bind.
  rewrite state_of_messages, Hlast, Hfinal, state_of_iterations.
  unfold ge_int, as_int. by case_bool_decide.
Qed.

Lemma resolve_agent (st : gmap string pyval) label :
  should_continue st = Returned label →
  resolve workflow "agent" st
  = match agent_path_map !! label with
    | Some t => Goto t st
    | None => Stop (Unroutable "agent" label)
    end.
Proof. intros Hl. unfold resolve. by rewrite workflow_agent_edges, Hl. Qed.

Lemma step_agent (st st' update : gmap string pyval) :
  agent_node st = Returned update →
  apply_writes ReActState update st = Returned st' →
  step workflow "agent" st = resolve workflow "agent" st'.
Proof.
  intros Hnode Hmerge. unfold step.
  by rewrite workflow_agent, Hnode, workflow_schema, Hmerge.
Qed.

Lemma step_tools (st st' update : gmap string pyval) :
  tool_node st = Returned update →
  apply_writes ReActState update st = Returned st' →
  step workflow "tools" st = Goto (Node "agent") st'.
Proof.
  intros Hnode Hmerge. unfold step, resolve.
  by rewrite workflow_tools, Hnode, workflow_schema, Hmerge, workflow_tools_edge.
Qed.

Lemma tool_node_observation (st : gmap string pyval) ms m obs :
  st !! "messages" = Some (VList ms) → last ms = Some m →
  observation (content m) = Returned obs →
  tool_node st = Returned {[ "messages" := VList [tool_message obs] ]}.
Proof.
  intros Hst Hlast Hobs.
  unfold tool_node, getitem, last_content, mbind, outcome_bind.
  by rewrite Hst, Hlast, Hobs.
Qed.

(** Merging the update of [tool_node] into any state whose message log is a
    list. *)
Lemma merge_tool_update_any (st : gmap string pyval) ms obs :
  st !! "messages" = Some (VList ms) →
  apply_writes ReActState {[ "messages" := VList [tool_message obs] ]} st
  = Returned (<["messages" := VList (ms ++ [tool_message obs])]> st).
Proof.
  intros Hst. unfold apply_writes, ReActState, write_channel, mbind, outcome_bind.
  cbn [key reducer]. rewrite lookup_singleton_eq, Hst. cbn [operator_add].
  by rewrite lookup_singleton_ne.
Qed.

(** One Thinking step that goes on to Acting. *)
Lemma think_continue ms n reply :
  llm_invoke (VList ms) = Returned reply →
  contains "Final Answer" reply = false → (n + 1 < 5)%Z →
  step workflow "agent" (state_of ms n)
  = Goto (Node "tools") (state_of (ms ++ [assistant reply]) (n + 1)).
Proof.
  intros Hllm Hfinal Hn.
  erewrite step_agent;
    [| by apply agent_node_state_of | by apply merge_agent_update].
  erewrite resolve_agent;
    [| by apply (should_continue_counter _ (assistant reply)); [apply last_snoc |] ].
  rewrite bool_decide_false by lia. by rewrite path_map_continue.
Qed.

(** One Thinking step that stops: on the marker, or on the counter. *)
Lemma think_stop ms n reply :
  llm_invoke (VList ms) = Returned reply →
  contains "Final Answer" reply = true ∨ (5 ≤ n + 1)%Z →
  step workflow "agent" (state_of ms n)
  = Goto END (state_of (ms ++ [assistant reply]) (n + 1)).
Proof.
  intros Hllm Hstop.
  erewrite step_agent;
    [| by apply agent_node_state_of | by apply merge_agent_update].
  destruct (contains "Final Answer" reply) eqn:Hfinal.
  - erewrite resolve_agent; [by rewrite path_map_end |].
    eapply should_continue_final; [apply state_of_messages | apply last_snoc | done].
  - destruct Hstop as [|Hn]; [done |].
    erewrite resolve_agent;
      [| by apply (should_continue_counter _ (assistant reply)); [apply last_snoc |] ].
    rewrite bool_decide_true by lia. by rewrite path_map_end.
Qed.

(** One Acting step. *)
Lemma act ms n reply obs :
  observation reply = Returned obs →
  step workflow "tools" (state_of (ms ++ [assistant reply]) n)
  = Goto (Node "agent") (state_of (ms ++ [assistant reply; tool_message obs]) n).
Proof.
  intros Hobs.
  erewrite step_tools.
  - reflexivity.
  - eapply tool_node_observation; [apply state_of_messages | apply last_snoc | done].
  - rewrite merge_tool_update. by rewrite <- app_assoc.
Qed.

Lemma invoke_state_of ms n :
  app_invoke (state_of ms n) = run workflow recursion_limit "agent" (state_of ms n) [].
Proof. reflexivity. Qed.

(** C10: whenever the content of the last message contains "Final Answer",
    [should_continue] answers "end", whatever else the message contains (a
    tool directive included) and whatever the counter holds (the hypotheses
    do not even ask for one); "end" leads to [END], so the run stops after
    the agent node, with no tool node in the trace. *)
Theorem final_answer_takes_precedence (st : gmap string pyval) ms m :
  st !! "messages" = Some (VList ms) → last ms = Some m →
  contains "Final Answer" (content m) = true →
  should_continue st = Returned "end"
  ∧ resolve workflow "agent" st = Goto END st
  ∧ ∀ st0 update limit trace,
      agent_node st0 = Returned update →
      apply_writes ReActState update st0 = Returned st →
      run workflow (S limit) "agent" st0 trace = (trace ++ ["agent"], Finished st).
Proof.
  intros Hst Hlast Hfinal.
  assert (should_continue st = Returned "end") as Hend
    by (by eapply should_continue_final).
  assert (resolve workflow "agent" st = Goto END st) as Hres
    by (by erewrite resolve_agent; [rewrite path_map_end |]).
  split_and!; [done | done |].
  intros st0 update limit trace Hnode Hmerge.
  rewrite run_unfold. erewrite step_agent by done. by rewrite Hres.
Qed.

(** C7, as the code has it: when the last message contains neither
    "Action: Search" nor "Action: Calculator", the tool node returns the
    observation "无法识别的工具" without raising, the message is appended to
    the log, and the run goes on with the agent node. *)
Theorem unrecognized_directive_is_observed (st : gmap string pyval) ms m :
  st !! "messages" = Some (VList ms) → last ms = Some m →
  contains "Action: Search" (content m) = false →
  contains "Action: Calculator" (content m) = false →
  tool_node st = Returned {[ "messages" := VList [tool_message unrecognized_observation] ]}
  ∧ ∀ limit trace,
      run workflow (S limit) "tools" st trace
      = run workflow limit "agent"
          (<["messages" := VList (ms ++ [tool_message unrecognized_observation])]> st)
          (trace ++ ["tools"]).
Proof.
  intros Hst Hlast Hsearch Hcalc.
  assert (observation (content m) = Returned unrecognized_observation) as Hobs.
  { unfold observation, tool_result. by rewrite Hsearch, Hcalc. }
  assert (tool_node st
          = Returned {[ "messages" := VList [tool_message unrecognized_observation] ]})
    as Hnode by (by eapply tool_node_observation).
  split; [done |].
  intros limit trace. rewrite run_unfold.
  erewrite step_tools; [done | done |]. by apply merge_tool_update_any.
Qed.

(** C9: scenario B.  The first reply is taken by the script as a request to
    the calculator (no final-answer marker, no "Action: Search", an
    "Action: Calculator") with input "2**2+10"; the second reply holds the
    final-answer marker.  The calculator returns the integer 14, the run
    visits agent, tools, agent and ends, the log holding the observation
    "Observation: 14" between the two replies, the counter being 2. *)
Theorem calculator_then_final_answer (q : message) (r1 r2 : string) :
  contains "Final Answer" r1 = false →
  contains "Action: Search" r1 = false →
  contains "Action: Calculator" r1 = true →
  action_input r1 = "2**2+10" →
  contains "Final Answer" r2 = true →
  llm_invoke (VList [q]) = Returned r1 →
  llm_invoke (VList [q; assistant r1; tool_message "Observation: 14"]) = Returned r2 →
  tool_result r1 = Returned (PInt 14)
  ∧ app_invoke (state_of [q] 0)
    = (["agent"; "tools"; "agent"],
       Finished (state_of [q; assistant r1; tool_message "Observation: 14"; assistant r2] 2)).
Proof.
  intros Hfinal1 Hsearch Hcalc Hinput Hfinal2 Hllm1 Hllm2.
  assert (tool_result r1 = Returned (PInt 14)) as Hres.
  { unfold tool_result. rewrite Hsearch, Hcalc, Hinput. by vm_compute. }
  assert (observation r1 = Returned "Observation: 14") as Hobs.
  { unfold observation. rewrite Hres. by vm_compute. }
  split; [done |].
  rewrite invoke_state_of. unfold recursion_limit.
  rewrite run_unfold, (think_continue [q] 0 r1) by done.
  rewrite run_unfold, (act [q] (0 + 1) r1 _ Hobs).
  cbn [app]. rewrite run_unfold.
  by rewrite (think_stop [q; assistant r1; tool_message "Observation: 14"] (0 + 1) r2)
    by auto.
Qed.

(** The keys of a state built by [state_of]. *)
Lemma state_of_keys ms n key :
  is_Some (state_of ms n !! key) → key = "messages" ∨ key = "iterations".
Proof.
  unfold state_of. intros [v Hv].
  destruct (decide (key = "messages")) as [|Hm]; [by left |].
  rewrite lookup_insert_ne in Hv by done.
  destruct (decide (key = "iterations")) as [|Hi]; [by right |].
  by rewrite lookup_singleton_ne in Hv.
Qed.

Lemma state_of_no_flag ms n key : state_of ms n !! key ≠ Some (VBool true).
Proof.
  intros Hflag.
  destruct (state_of_keys ms n key) as [-> | ->]; [by eexists | |];
    by rewrite ?state_of_messages, ?state_of_iterations in Hflag.
Qed.

(** [k] rounds of Thinking and Acting followed by the Thinking step at which
    the counter reaches 5. *)
Lemma forced_rounds (k : nat) : ∀ ms n limit trace,
  (∀ v, ∃ r, llm_invoke v = Returned r ∧ contains "Final Answer" r = false) →
  (∀ v r, llm_invoke v = Returned r → ∃ obs, observation r = Returned obs) →
  (n + Z.of_nat k = 4)%Z →
  ∃ history reply,
    run workflow (2 * k + 1 + limit) "agent" (state_of ms n) trace
    = (trace ++ concat (replicate k ["agent"; "tools"]) ++ ["agent"],
       Finished (state_of (ms ++ history ++ [assistant reply]) 5))
    ∧ length history = 2 * k
    ∧ llm_invoke (VList (ms ++ history)) = Returned reply
    ∧ contains "Final Answer" reply = false.
Proof.
  induction k as [|k IH]; intros ms n limit trace Hreply Htool Hn.
  - destruct (Hreply (VList ms)) as (r & Hr & Hfinal).
    exists [], r. rewrite app_nil_r. split_and!; [| done | done | done].
    change (2 * 0 + 1 + limit) with (S limit).
    rewrite run_unfold, (think_stop ms n r) by (done || right; lia).
    by replace (n + 1)%Z with 5%Z by lia.
  - destruct (Hreply (VList ms)) as (r & Hr & Hfinal).
    destruct (Htool _ _ Hr) as [obs Hobs].
    destruct (IH (ms ++ [assistant r; tool_message obs]) (n + 1)%Z limit
                 ((trace ++ ["agent"]) ++ ["tools"]))
      as (history & reply & Hrun & Hlen & Hlast & Hfinal'); [done | done | lia |].
    exists ([assistant r; tool_message obs] ++ history), reply.
    split_and!.
    + replace (2 * S k + 1 + limit) with (S (S (2 * k + 1 + limit))) by lia.
      rewrite run_unfold, (think_continue ms n r) by (done || lia).
      rewrite run_unfold, (act ms (n + 1) r obs Hobs).
      rewrite Hrun. f_equal.
      * cbn [replicate concat]. by rewrite <- !app_assoc.
      * by rewrite <- !app_assoc.
    + rewrite length_app, Hlen. cbn. lia.
    + by rewrite app_assoc.
    + done.
Qed.

(** C3, as the code has it: starting with the counter at 0, when every call
    to the model returns a reply without "Final Answer" and every tool
    invocation these replies lead to returns, the run makes exactly five
    Thinking steps with four Acting steps between them and then stops
    through the ordinary "end" label; the state returned has the counter at
    5 and, as its last message, the fifth reply as the model gave it.  The
    state has the keys "messages" and "iterations" and no other: the stop
    is recorded nowhere. *)
Theorem iteration_cap_stops_after_five (ms : list message) :
  (∀ v, ∃ r, llm_invoke v = Returned r ∧ contains "Final Answer" r = false) →
  (∀ v r, llm_invoke v = Returned r → ∃ obs, observation r = Returned obs) →
  ∃ history reply,
    app_invoke (state_of ms 0)
    = (["agent"; "tools"; "agent"; "tools"; "agent"; "tools"; "agent"; "tools"; "agent"],
       Finished (state_of (ms ++ history ++ [assistant reply]) 5))
    ∧ length history = 8
    ∧ llm_invoke (VList (ms ++ history)) = Returned reply
    ∧ should_continue (state_of (ms ++ history ++ [assistant reply]) 5) = Returned "end"
    ∧ ∀ key, is_Some (state_of (ms ++ history ++ [assistant reply]) 5 !! key) →
             key = "messages" ∨ key = "iterations".
Proof.
  intros Hreply Htool.
  destruct (forced_rounds 4 ms 0 16 [] Hreply Htool) as
    (history & reply & Hrun & Hlen & Hlast & Hfinal); [done |].
  exists history, reply. split_and!; [done | done | done | |].
  - rewrite app_assoc.
    erewrite (should_continue_counter _ (assistant reply));
      [done | apply last_snoc | done].
  - apply state_of_keys.
Qed.

(** C8: merging an update into a state whose message log is the list [old].
    Either the merge returns, and then the log is [old] followed by the
    messages of the update (by [old] alone when the update has none), the
    counter is the one of the update when it has one and is left as it was
    otherwise, and no other key changes; or the merge raises, which happens
    only when the update gives something other than a list for the log, and
    then no state is produced at all.  A step of the graph hands on merged
    states only. *)
Theorem merge_appends_messages_and_overwrites_scalars
    (st update : gmap string pyval) (old : list message) :
  st !! "messages" = Some (VList old) →
  match apply_writes ReActState update st with
  | Returned st' =>
      (∃ new, st' !! "messages" = Some (VList (old ++ new))
              ∧ (update !! "messages" = Some (VList new)
                 ∨ update !! "messages" = None ∧ new = []))
      ∧ st' !! "iterations"
        = match update !! "iterations" with
          | Some v => Some v
          | None => st !! "iterations"
          end
      ∧ ∀ key, key ≠ "messages" → key ≠ "iterations" → st' !! key = st !! key
  | Raised e =>
      e = TypeError
      ∧ ∃ v, update !! "messages" = Some v ∧ ∀ new, v ≠ VList new
  end
  ∧ ∀ n t st', step workflow n st = Goto t st' →
      ∃ update', apply_writes ReActState update' st = Returned st'.
Proof.
  intros Hst. split.
  - unfold apply_writes, ReActState, write_channel, mbind, outcome_bind.
    cbn [key reducer]. rewrite Hst.
    destruct (update !! "messages") as [[z|b|new]|] eqn:Hmsgs; cbn [operator_add as_int].
    + split; [done |]. eexists. split; [done |]. by intros new.
    + split; [done |]. eexists. split; [done |]. by intros new.
    + destruct (update !! "iterations") as [v|] eqn:Hits.
      * split_and!.
        -- exists new. rewrite lookup_insert_ne by done.
           rewrite lookup_insert_eq. auto.
        -- by rewrite lookup_insert_eq.
        -- intros key Hm Hi. by rewrite !lookup_insert_ne.
      * split_and!.
        -- exists new. rewrite lookup_insert_eq. auto.
        -- by rewrite lookup_insert_ne.
        -- intros key Hm Hi. by rewrite lookup_insert_ne.
    + destruct (update !! "iterations") as [v|] eqn:Hits.
      * split_and!.
        -- exists []. rewrite app_nil_r, lookup_insert_ne by done. auto.
        -- by rewrite lookup_insert_eq.
        -- intros key Hm Hi. by rewrite lookup_insert_ne.
      * split_and!; [| done | done].
        exists []. rewrite app_nil_r. auto.
  - intros n t st' Hstep.
    destruct (step_merges_whole_update _ _ _ _ _ Hstep) as (_ & update' & _ & _ & Hmerge).
    by exists update'.
Qed.

(** C4: the calculator of [ReactAgent.py] hands its argument to [eval] with
    nothing around it.  On the malformed "2+" it raises SyntaxError and on
    "1//0" ZeroDivisionError; the tool node passes the exception on and the
    run ends with it.  The calculators of [ReactAgentV2.py] and
    [googleSearch_simple.py] catch the same exceptions and return a text. *)
Theorem calculator_tool_raises :
  ReactAgent.calculator_tool "2+" = Raised SyntaxError
  ∧ ReactAgent.calculator_tool "1//0" = Raised ZeroDivisionError
  ∧ tool_node (state_of [assistant Scenarios.division_by_zero_request] 1)
    = Raised ZeroDivisionError
  ∧ run workflow recursion_limit "tools"
      (state_of [assistant Scenarios.division_by_zero_request] 1) ["agent"]
    = (["agent"; "tools"], Failed ZeroDivisionError)
  ∧ ReactAgentV2.calculator_tool "2+"
    = Returned ("❌ 计算错误: " +:+ exn_text SyntaxError)
  ∧ ReactAgentV2.calculator_tool "1//0"
    = Returned ("❌ 计算错误: " +:+ exn_text ZeroDivisionError)
  ∧ GoogleSearchSimple.calculator "2+"
    = Returned ("计算错误: " +:+ exn_text SyntaxError)
  ∧ GoogleSearchSimple.calculator "1//0"
    = Returned ("计算错误: " +:+ exn_text ZeroDivisionError).
Proof. split_and!; by vm_compute. Qed.

(** The calculators with a [try] around [eval] return a text whenever
    [eval] and the formatting return or raise an exception of class
    [Exception], which is every outcome this embedding has. *)
Lemma calculator_v2_never_raises (expression : string) :
  ∃ text, ReactAgentV2.calculator_tool expression = Returned text.
Proof.
  unfold ReactAgentV2.calculator_tool, try_except, mbind, outcome_bind.
  destruct (eval NoBuiltins expression) as [v|e]; [| by eexists].
  destruct (str v); by eexists.
Qed.

Lemma calculator_simple_never_raises (expression : string) :
  ∃ text, GoogleSearchSimple.calculator expression = Returned text.
Proof.
  unfold GoogleSearchSimple.calculator, try_except, mbind, outcome_bind.
  destruct (eval Globals expression) as [v|e]; [| by eexists].
  destruct (str v); by eexists.
Qed.

End ReactFacts.

(** *** The ReAct properties on concrete runs *)

Section ReactRuns.
Import Py Graph ReactAgent Scenarios.

#[local] Existing Instance plain_interpreter.

(** A message with a tool directive and the marker: the marker wins. *)
Lemma final_answer_takes_precedence_witness :
  let ms := [user question; assistant directive_and_answer] in
  contains "Action: Calculator" directive_and_answer = true
  ∧ contains "Final Answer" directive_and_answer = true
  ∧ should_continue (state_of ms 0) = Returned "end"
  ∧ @resolve pyval (@workflow plain_interpreter never_final) "agent" (state_of ms 0)
    = Goto END (state_of ms 0).
Proof.
  intros ms.
  pose proof (@final_answer_takes_precedence plain_interpreter never_final
                (state_of ms 0) ms (assistant directive_and_answer)
                eq_refl eq_refl eq_refl) as (Hlabel & Hresolve & _).
  split; [reflexivity |]. split; [reflexivity |]. split; assumption.
Defined.

(** A reply without any directive gets the unrecognized-tool observation. *)
Lemma unrecognized_directive_is_observed_witness :
  let ms := [user question; assistant musing] in
  contains "Action: Search" musing = false
  ∧ contains "Action: Calculator" musing = false
  ∧ tool_node (state_of ms 1)
    = Returned {[ "messages" := VList [tool_message unrecognized_observation] ]}.
Proof.
  intros ms. split; [reflexivity |]. split; [reflexivity |].
  exact (proj1 (@unrecognized_directive_is_observed plain_interpreter never_final
                  (state_of ms 1) ms (assistant musing)
                  eq_refl eq_refl eq_refl eq_refl)).
Defined.

(** C7 as the spec words it fails: the reply names the tool "SearchEngine",
    which the registry [tools] does not hold ("Search" and "Calculator"
    only), and yet the tool node runs the search tool and reports its
    result, not the unrecognized-tool observation. *)
Lemma unregistered_name_runs_search :
  let st := state_of [user question; assistant search_engine_request] 1 in
  requested_tool search_engine_request = Some "SearchEngine"
  ∧ ¬ In "SearchEngine" (map name tools)
  ∧ tool_node st
    = Returned {[ "messages" := VList [tool_message "Observation: 搜索结果: x 的相关信息..."] ]}
  ∧ tool_node st
    ≠ Returned {[ "messages" := VList [tool_message unrecognized_observation] ]}.
Proof.
  intros st.
  assert (tool_node st
          = Returned {[ "messages" :=
                          VList [tool_message "Observation: 搜索结果: x 的相关信息..."] ]})
    as Hnode.
  { eapply tool_node_observation; [apply state_of_messages | reflexivity |].
    by vm_compute. }
  split_and!.
  - by vm_compute.
  - cbn. intros [Heq | [Heq | []]]; discriminate Heq.
  - done.
  - rewrite Hnode. intros Heq.
    apply (f_equal (fun r => match r with
                             | Returned update => update !! "messages"
                             | Raised _ => None
                             end)) in Heq.
    rewrite !lookup_singleton_eq in Heq. discriminate Heq.
Qed.

(** Scenario B, run. *)
Lemma calculator_then_final_answer_witness :
  action_input calculator_request = "2**2+10"
  ∧ @app_invoke plain_interpreter scenario_B (state_of [user question] 0)
    = (["agent"; "tools"; "agent"],
       Finished (state_of [user question; assistant calculator_request;
                           tool_message "Observation: 14"; assistant final_reply] 2)).
Proof.
  split; [by vm_compute |].
  exact (proj2 (@calculator_then_final_answer plain_interpreter scenario_B
                  (user question) calculator_request final_reply
                  eq_refl eq_refl eq_refl eq_refl eq_refl eq_refl eq_refl)).
Defined.

(** A model that never gives the marker, run from the input of the script. *)
Lemma iteration_cap_stops_after_five_witness :
  ∃ history reply,
    @app_invoke plain_interpreter never_final (state_of [user question] 0)
    = (["agent"; "tools"; "agent"; "tools"; "agent"; "tools"; "agent"; "tools"; "agent"],
       Finished (state_of ([user question] ++ history ++ [assistant reply]) 5))
    ∧ length history = 8.
Proof.
  destruct (@iteration_cap_stops_after_five plain_interpreter never_final [user question])
    as (history & reply & Hrun & Hlen & _).
  - intros v. exists musing. split; reflexivity.
  - intros v r Hr. injection Hr as <-. exists unrecognized_observation. reflexivity.
  - exists history, reply. split; assumption.
Defined.

(** C3 as the spec words it fails: the run below is stopped by the counter,
    after five replies without the marker, and the state it returns has no
    flag: it ends through the same "end" label as a genuine completion, its
    keys are "messages" and "iterations", and no key holds [True]. *)
Lemma forced_stop_sets_no_flag :
  @app_invoke plain_interpreter never_final (initial question)
  = (["agent"; "tools"; "agent"; "tools"; "agent"; "tools"; "agent"; "tools"; "agent"],
     Finished forced_stop_state)
  ∧ should_continue forced_stop_state = Returned "end"
  ∧ dom forced_stop_state = {[ "messages"; "iterations" ]}
  ∧ ¬ ∃ flag, forced_stop_state !! flag = Some (VBool true).
Proof.
  split_and!.
  - by vm_compute.
  - unfold forced_stop_state.
    by rewrite (should_continue_counter _ (assistant musing)).
  - unfold forced_stop_state, state_of. rewrite dom_insert_L, dom_singleton_L. done.
  - intros [flag Hflag]. by eapply state_of_no_flag.
Qed.

(** Merging the update of the agent node into the input of the script. *)
Lemma merge_appends_messages_and_overwrites_scalars_witness :
  let update : gmap string pyval :=
    {[ "messages" := VList [assistant musing]; "iterations" := VInt 1 ]} in
  apply_writes ReActState update (initial question)
  = Returned (state_of [user question; assistant musing] 1)
  ∧ ∀ n t st',
      step (@workflow plain_interpreter never_final) n (initial question) = Goto t st' →
      ∃ update', apply_writes ReActState update' (initial question) = Returned st'.
Proof.
  intros update. split; [reflexivity |].
  exact (proj2 (@merge_appends_messages_and_overwrites_scalars
                  plain_interpreter never_final (initial question) update
                  [user question] eq_refl)).
Defined.

End ReactRuns.

(** ** The travel graph of [mcp_travel_langgraph.py] *)

Section TravelFacts.
Import Py Graph Travel.
Context `{Services}.

(** The label after a node depends on the step name the handler stored. *)
Lemma route_next_current_step (st : gmap string (pyval data)) (c : string) :
  st !! "current_step" = Some (VStr c) →
  route_next st
  = Returned (if String.eqb (default "end" (step_map !! c)) "end" then "end"
              else default "end" (step_map !! c)).
Proof. intros Hc. unfold route_next. by rewrite Hc. Qed.

(** Every handler but the last two stores the name of the step to come, and
    [step_map] answers with the step after that one: the label is not in the
    edge map the graph gives the node. *)
Lemma route_after_collect (st st' : gmap string (pyval data)) :
  collect_requirements st = Returned st' →
  route_next st' = Returned "attractions".
Proof.
  unfold collect_requirements, mbind, outcome_bind.
  destruct (requirements_dialogue st); [| done]. intros [= <-].
  rewrite (route_next_current_step _ "weather_check"); [done |].
  rewrite lookup_insert_ne by done. apply lookup_insert_eq.
Qed.

Lemma route_after_weather (st st' : gmap string (pyval data)) :
  check_weather st = Returned st' → route_next st' = Returned "restaurants".
Proof.
  unfold check_weather, mbind, outcome_bind.
  destruct (weather_lookup st); [| done]. intros [= <-].
  rewrite (route_next_current_step _ "find_attractions"); [done | apply lookup_insert_eq].
Qed.

Lemma route_after_attractions (st st' : gmap string (pyval data)) :
  find_attractions st = Returned st' → route_next st' = Returned "hotels".
Proof.
  unfold find_attractions, mbind, outcome_bind.
  destruct (attraction_search st); [| done]. intros [= <-].
  rewrite (route_next_current_step _ "find_restaurants"); [done | apply lookup_insert_eq].
Qed.

Lemma route_after_restaurants (st st' : gmap string (pyval data)) :
  find_restaurants st = Returned st' → route_next st' = Returned "schedule".
Proof.
  unfold find_restaurants, mbind, outcome_bind.
  destruct (restaurant_search st); [| done]. intros [= <-].
  rewrite (route_next_current_step _ "find_hotels"); [done | apply lookup_insert_eq].
Qed.

Lemma route_after_hotels (st st' : gmap string (pyval data)) :
  find_hotels st = Returned st' → route_next st' = Returned "budget".
Proof.
  unfold find_hotels, mbind, outcome_bind.
  destruct (hotel_search st); [| done]. intros [= <-].
  rewrite (route_next_current_step _ "create_schedule"); [done | apply lookup_insert_eq].
Qed.

Lemma route_after_schedule (st st' : gmap string (pyval data)) :
  create_schedule st = Returned st' → route_next st' = Returned "generate".
Proof.
  unfold create_schedule, mbind, outcome_bind.
  destruct (schedule_dialogue st); [| done]. intros [= <-].
  rewrite (route_next_current_step _ "calculate_budget"); [done | apply lookup_insert_eq].
Qed.

Lemma route_after_budget (st st' : gmap string (pyval data)) :
  calculate_budget st = Returned st' → route_next st' = Returned "review".
Proof.
  unfold calculate_budget, mbind, outcome_bind.
  destruct (budget_table st); [| done]. intros [= <-].
  rewrite (route_next_current_step _ "generate_plan"); [done | apply lookup_insert_eq].
Qed.

Lemma workflow_collect_edges :
  edges workflow !! "collect" = Some (Branch route_next collect_path_map).
Proof. cbn. rewrite !lookup_insert_ne by done. apply lookup_insert_eq. Qed.

Lemma workflow_collect : nodes workflow !! "collect" = Some collect_requirements.
Proof. cbn. rewrite !lookup_insert_ne by done. apply lookup_insert_eq. Qed.

Lemma travel_schema_plain : Forall (fun c => reducer c = None) EnhancedTravelState.
Proof. unfold EnhancedTravelState. by apply Forall_fmap, Forall_true. Qed.

Lemma travel_blank : blank EnhancedTravelState = ∅.
Proof. reflexivity. Qed.

(** The input of the script has the keys of the schema: writing it to the
    blank channels gives it back. *)
Lemma initial_state_written d1 d2 d3 (p : data) d5 :
  apply_writes EnhancedTravelState (initial_state d1 d2 d3 p d5)
    (blank EnhancedTravelState)
  = Returned (initial_state d1 d2 d3 p d5).
Proof.
  destruct (apply_writes_plain _ travel_schema_plain (initial_state d1 d2 d3 p d5)
              (blank EnhancedTravelState)) as (st' & -> & Hst').
  f_equal. apply map_eq. intros k. rewrite Hst', travel_blank, lookup_empty.
  destruct (initial_state d1 d2 d3 p d5 !! k) as [v|] eqn:Hk; [| done].
  rewrite bool_decide_true; [done |].
  apply elem_of_list_to_map_2 in Hk.
  by apply (list_elem_of_fmap_2 fst) in Hk.
Qed.

(** The run of the script: it ends at the first node. *)
Lemma first_step_is_the_last
    (destination duration budget : string) (preferences : data) (travel_type : string) :
  build_and_run_workflow destination duration budget preferences travel_type
  = match requirements_dialogue
            (initial_state destination duration budget preferences travel_type) with
    | Returned _ => (["collect"], Unroutable "collect" "attractions")
    | Raised e => (["collect"], Failed e)
    end.
Proof.
  set (st0 := initial_state destination duration budget preferences travel_type).
  unfold build_and_run_workflow, invoke.
  change (entry_point workflow) with (Some "collect").
  change (schema workflow) with EnhancedTravelState.
  fold st0. unfold st0 at 1 2. rewrite initial_state_written. fold st0.
  unfold recursion_limit. rewrite run_unfold. unfold step.
  rewrite workflow_collect.
  change (schema workflow) with EnhancedTravelState.
  unfold collect_requirements at 1. unfold mbind, outcome_bind.
  destruct (requirements_dialogue st0) as [msgs|e]; [| done].
  destruct (apply_writes_plain _ travel_schema_plain
              (<["messages" := VData msgs]>
                 (<["current_step" := VStr "weather_check"]> st0)) st0)
    as (st' & -> & Hst').
  unfold resolve. rewrite workflow_collect_edges.
  rewrite (route_next_current_step st' "weather_check"); [done |].
  rewrite Hst'. rewrite lookup_insert_ne by done. rewrite lookup_insert_eq.
  rewrite bool_decide_true; [done |].
  change (key <$> EnhancedTravelState) with
    [ "destination"; "duration"; "budget"; "preferences"; "travel_type";
      "weather_info"; "attractions"; "restaurants"; "hotels";
      "daily_schedule"; "budget_breakdown"; "final_plan";
      "messages"; "current_step"; "user_feedback"; "revision_needed" ].
  rewrite !elem_of_cons. tauto.
Qed.

(** C1 on the code, at the first node: for whatever request the script is run
    on, once the handler of "collect" has returned, [route_next] gives the
    label "attractions"; the edge map of "collect" has entries for "weather"
    and "end" only; the run ends there, unroutable.  (When the model call of
    the handler raises, the run ends with that exception.) *)
Theorem collect_routes_to_unmapped_label
    (destination duration budget : string) (preferences : data) (travel_type : string) :
  let st0 := initial_state destination duration budget preferences travel_type in
  collect_path_map !! "attractions" = None
  ∧ (∀ st', collect_requirements st0 = Returned st' →
            route_next st' = Returned "attractions")
  ∧ build_and_run_workflow destination duration budget preferences travel_type
    = match requirements_dialogue st0 with
      | Returned _ => (["collect"], Unroutable "collect" "attractions")
      | Raised e => (["collect"], Failed e)
      end.
Proof.
  intros st0. split_and!;
    [done | apply route_after_collect | apply first_step_is_the_last].
Qed.

End TravelFacts.

(** The call [main] makes, with collaborators that all answer: the run stops
    after "collect". *)
Lemma hangzhou_run_is_unroutable :
  @Travel.build_and_run_workflow Scenarios.obliging
    "杭州" "3天2晚" "人均2000元" ["自然风光"; "传统美食"] "自由行"
  = (["collect"], Graph.Unroutable "collect" "attractions").
Proof. by rewrite first_step_is_the_last. Qed.

(** ** The fan-out and the summarizer of [multi_agent_async.py] *)

Section AsyncFacts.
Import Py MultiAgentAsync.
Context `{Interpreter} `{Environment}.

Lemma advance_0 w : advance 0 w = w.
Proof. destruct w as [r p]. unfold advance. cbn. f_equal. lia. Qed.

Lemma bind_run {A B} (m : M A) (f : A → M B) w :
  (m ≫= f) w = f (m w).1 (m w).2.
Proof. unfold mbind, M_bind. by destruct (m w). Qed.

Lemma now_run w : now w = (clock (readings w), advance 1 w).
Proof. unfold now, advance. do 2 f_equal. lia. Qed.

(** Starting the coroutines: the one at position [i] gets the [i]-th reading
    from here. *)
Lemma start_all_run (cos : list coroutine) : ∀ w,
  start_all cos w
  = (imap (fun i co => co (clock (readings w + i))) cos, advance (length cos) w).
Proof.
  induction cos as [|co cos IH]; intros w.
  - cbn. by rewrite advance_0.
  - cbn [start_all]. rewrite bind_run, now_run. cbn [fst snd].
    rewrite bind_run, IH. cbn [fst snd mret M_ret length]. f_equal.
    + cbn [imap]. f_equal; [by rewrite Nat.add_0_r |].
      apply imap_ext. intros i x _. cbn. do 2 f_equal. lia.
    + unfold advance. cbn. f_equal. lia.
Qed.

(** Completing them in the order [order]: the task completing [j]-th gets
    the [j]-th reading from here, and its slot. *)
Lemma complete_all_run (pending : list (time → outcome TaskResult)) (order : list nat) :
  ∀ slots w,
  NoDup order → Forall (fun i => i < length pending) order →
  length slots = length pending →
  ∃ slots',
    complete_all pending order slots w = (slots', advance (length order) w)
    ∧ length slots' = length pending
    ∧ (∀ j i resume, order !! j = Some i → pending !! i = Some resume →
         slots' !! i = Some (Some (resume (clock (readings w + j)))))
    ∧ (∀ i, i ∉ order → slots' !! i = slots !! i).
Proof.
  induction order as [|i0 order IH]; intros slots w Hnodup Hrange Hlen.
  - exists slots. cbn. rewrite advance_0. split_and!; [done | done | | done].
    intros j i resume Hj. by rewrite lookup_nil in Hj.
  - apply NoDup_cons in Hnodup as [Hfresh Hnodup].
    apply Forall_cons in Hrange as [Hi0 Hrange].
    destruct (lookup_lt_is_Some_2 pending i0 Hi0) as [resume0 Hresume0].
    cbn [complete_all]. rewrite Hresume0, bind_run, now_run. cbn [fst snd].
    destruct (IH (<[i0 := Some (resume0 (clock (readings w)))]> slots) (advance 1 w))
      as (slots' & Hrun & Hlen' & Hdone & Hrest);
      [done | done | by rewrite length_insert |].
    exists slots'. split_and!.
    + rewrite Hrun. f_equal. unfold advance. cbn. f_equal. lia.
    + done.
    + intros [|j] i resume Hj Hi.
      * injection Hj as ->. rewrite Hrest by done.
        rewrite list_lookup_insert_eq by lia.
        rewrite Hresume0 in Hi. injection Hi as ->. by rewrite Nat.add_0_r.
      * rewrite (Hdone j i resume Hj Hi). cbn. do 4 f_equal. lia.
    + intros i [Hne Hi]%not_elem_of_cons. rewrite Hrest by done.
      by rewrite list_lookup_insert_ne.
Qed.

Lemma permutation_of_positions (order : list nat) n :
  order ≡ₚ seq 0 n →
  NoDup order ∧ Forall (fun i => i < n) order
  ∧ ∀ i, i < n → ∃ j, order !! j = Some i.
Proof.
  intros Hperm. split_and!.
  - rewrite Hperm. apply NoDup_seq.
  - apply Forall_forall. intros i Hi. rewrite Hperm in Hi.
    apply elem_of_seq in Hi. lia.
  - intros i Hi. apply list_elem_of_lookup. rewrite Hperm.
    apply elem_of_seq. lia.
Qed.

(** The gather: whatever the order of completion, the slot at position [i]
    holds the outcome of the coroutine given at position [i]. *)
Lemma gather_run (cos : list coroutine) (order : list nat) w :
  order ≡ₚ seq 0 (length cos) →
  ∃ outcomes,
    gather cos order w = (Some outcomes, advance (2 * length cos) w)
    ∧ length outcomes = length cos
    ∧ ∀ i co, cos !! i = Some co →
        ∃ j, order !! j = Some i
          ∧ outcomes !! i
            = Some (co (clock (readings w + i))
                       (clock (readings w + length cos + j))).
Proof.
  intros Hperm.
  destruct (permutation_of_positions _ _ Hperm) as (Hnodup & Hrange & Hall).
  unfold gather. rewrite bind_run, start_all_run. cbn [fst snd].
  set (pending := imap (fun i co => co (clock (readings w + i))) cos).
  assert (length pending = length cos) as Hpending by apply length_imap.
  destruct (complete_all_run pending order (replicate (length cos) None)
              (advance (length cos) w))
    as (slots & Hrun & Hlen & Hdone & _);
    [done | by rewrite Hpending | by rewrite length_replicate |].
  rewrite bind_run, Hrun. cbn [fst snd mret M_ret].
  assert (∀ i co, cos !! i = Some co →
            ∃ j, order !! j = Some i
              ∧ slots !! i
                = Some (Some (co (clock (readings w + i))
                                 (clock (readings w + length cos + j)))))
    as Hslots.
  { intros i co Hco.
    destruct (Hall i) as [j Hj]; [by eapply lookup_lt_Some |].
    exists j. split; [done |].
    assert (pending !! i = Some (co (clock (readings w + i)))) as Hp
      by (unfold pending, coroutine in *; by rewrite list_lookup_imap, Hco).
    rewrite (Hdone j i _ Hj Hp). unfold advance. cbn. done. }
  destruct (mapM_is_Some_2 id slots) as [outcomes Houtcomes].
  { apply Forall_lookup. intros i slot Hslot.
    destruct (lookup_lt_is_Some_2 cos i) as [co Hco].
    { rewrite <- Hpending, <- Hlen. by eapply lookup_lt_Some. }
    destruct (Hslots i co Hco) as (j & _ & Hi).
    rewrite Hi in Hslot. injection Hslot as <-. by eexists. }
  exists outcomes. rewrite Houtcomes.
  pose proof (mapM_Some_1 _ _ _ Houtcomes) as Hall2.
  split_and!.
  - assert (length order = length cos) as Horder
      by (by rewrite Hperm, length_seq).
    f_equal. unfold advance. cbn. f_equal. lia.
  - by rewrite <- (length_mapM _ _ _ Houtcomes), Hlen.
  - intros i co Hco. destruct (Hslots i co Hco) as (j & Hj & Hi).
    exists j. split; [done |].
    destruct (Forall2_lookup_l _ _ _ _ _ Hall2 Hi) as (o & Ho & Heq).
    cbn in Heq. by injection Heq as <-.
Qed.

(** The loop after the gather: position by position, a result is kept and an
    exception becomes a failure record. *)
Lemma process_from_run (outcomes : list (outcome TaskResult)) : ∀ i w,
  ∃ processed w',
    process_from i outcomes w = (processed, w')
    ∧ prompts w' = prompts w
    ∧ length processed = length outcomes
    ∧ ∀ k o, outcomes !! k = Some o →
        match o with
        | Returned r => processed !! k = Some r
        | Raised e =>
            ∃ t, processed !! k
                 = Some {| agent := "Agent-" +:+ pretty (i + k + 1);
                           task := "搜索任务";
                           result := "异常: " +:+ exn_text e;
                           duration := zero; timestamp := t; success := false |}
        end.
Proof.
  induction outcomes as [|o outcomes IH]; intros i w.
  - exists [], w. split_and!; [done | done | done |].
    intros k o Hk. by rewrite lookup_nil in Hk.
  - destruct o as [r|e]; cbn [process_from].
    + destruct (IH (S i) w) as (processed & w' & Hrun & Hprompts & Hlen & Hall).
      exists (r :: processed), w'. rewrite bind_run, Hrun. cbn [fst snd mret M_ret].
      split_and!; [done | done | by cbn; rewrite Hlen |].
      intros [|k] o Hk.
      * by injection Hk as <-.
      * specialize (Hall k o Hk). destruct o; [done |].
        destruct Hall as [t Ht]. exists t. cbn.
        by replace (i + S k + 1) with (S i + k + 1) by lia.
    + rewrite bind_run, now_run. cbn [fst snd].
      destruct (IH (S i) (advance 1 w))
        as (processed & w' & Hrun & Hprompts & Hlen & Hall).
      eexists (_ :: processed), w'. rewrite bind_run, Hrun. cbn [fst snd mret M_ret].
      split_and!; [done | done | by cbn; rewrite Hlen |].
      intros [|k] o Hk.
      * injection Hk as <-. eexists. cbn. by rewrite Nat.add_0_r.
      * specialize (Hall k o Hk). destruct o; [done |].
        destruct Hall as [t Ht]. exists t. cbn.
        by replace (i + S k + 1) with (S i + k + 1) by lia.
Qed.

(** The fan-out as a whole. *)
Lemma fan_out_run (cos : list coroutine) (order : list nat) w :
  order ≡ₚ seq 0 (length cos) →
  ∃ results w',
    fan_out cos order w = (Some results, w')
    ∧ prompts w' = prompts w
    ∧ length results = length cos
    ∧ ∀ i co, cos !! i = Some co →
        ∃ j, order !! j = Some i ∧
          match co (clock (readings w + i)) (clock (readings w + length cos + j)) with
          | Returned r => results !! i = Some r
          | Raised e =>
              ∃ t, results !! i
                   = Some {| agent := "Agent-" +:+ pretty (i + 1);
                             task := "搜索任务";
                             result := "异常: " +:+ exn_text e;
                             duration := zero; timestamp := t; success := false |}
          end.
Proof.
  intros Hperm.
  destruct (gather_run cos order w Hperm) as (outcomes & Hgather & Hlen & Hslots).
  destruct (process_from_run outcomes 0 (advance (2 * length cos) w))
    as (results & w' & Hprocess & Hprompts & Hlen' & Hresults).
  exists results, w'. unfold fan_out.
  rewrite bind_run, Hgather. cbn [fst snd].
  rewrite bind_run, Hprocess. cbn [fst snd mret M_ret].
  split_and!; [done | done | lia |].
  intros i co Hco. destruct (Hslots i co Hco) as (j & Hj & Hi).
  exists j. split; [done |]. exact (Hresults i _ Hi).
Qed.

Lemma ainvoke_returned name job output start_time end_time :
  executor_invoke name job = Returned output →
  ainvoke name job start_time end_time
  = Returned {| agent := name; task := job; result := output;
                duration := total_seconds start_time end_time;
                timestamp := end_time; success := true |}.
Proof. intros Hex. unfold ainvoke, try_except, mbind, outcome_bind. by rewrite Hex. Qed.

Lemma ainvoke_raised name job e start_time end_time :
  executor_invoke name job = Raised e →
  ainvoke name job start_time end_time
  = Returned {| agent := name; task := job;
                result := "任务执行失败: " +:+ exn_text e;
                duration := total_seconds start_time end_time;
                timestamp := end_time; success := false |}.
Proof. intros Hex. unfold ainvoke, try_except, mbind, outcome_bind. by rewrite Hex. Qed.

(** C2: the fan-out of [research], for any list of coroutines and any order
    of completion (a permutation of the positions): it returns as many
    results as there were coroutines, and the result at position [i] is the
    one of the coroutine given at position [i]: what that coroutine returned
    (having started at the [i]-th reading of the clock and completed [j]-th),
    or, had it raised, the failure record the loop builds for position
    [i]. *)
Theorem fan_out_keeps_submission_order (cos : list coroutine) (order : list nat) (w : World) :
  order ≡ₚ seq 0 (length cos) →
  ∃ results w',
    fan_out cos order w = (Some results, w')
    ∧ length results = length cos
    ∧ ∀ i co, cos !! i = Some co →
        ∃ j, order !! j = Some i ∧
          match co (clock (readings w + i)) (clock (readings w + length cos + j)) with
          | Returned r => results !! i = Some r
          | Raised e =>
              ∃ t, results !! i
                   = Some {| agent := "Agent-" +:+ pretty (i + 1);
                             task := "搜索任务";
                             result := "异常: " +:+ exn_text e;
                             duration := zero; timestamp := t; success := false |}
          end.
Proof.
  intros Hperm.
  destruct (fan_out_run cos order w Hperm) as (results & w' & Hrun & _ & Hlen & Hall).
  by exists results, w'.
Qed.



(** And every order of completion is the schedule of some choices. *)
Lemma complete_next_reaches (order : list nat) : ∀ pending,
  order ≡ₚ pending →
  ∃ choices, complete_next pending choices (length pending) = order.
Proof.
  induction order as [|p order IH]; intros pending Hperm.
  - apply Permutation_nil_l in Hperm as <-. by exists [].
  - assert (p ∈ pending) as Hin
      by (apply elem_of_Permutation; exists order; by symmetry).
    apply list_elem_of_lookup in Hin as [i Hi].
    assert (i < length pending) as Hlt by by eapply lookup_lt_Some.
    destruct (IH (delete i pending)) as [choices Hchoices].
    { apply (Permutation_cons_inv (a := p)).
      etrans; [exact Hperm | apply (delete_Permutation pending i p Hi)]. }
    exists (i :: choices).
    assert (length pending = S (length (delete i pending))) as Hlen
      by (rewrite length_delete by (by eexists); lia).
    rewrite Hlen. cbn [complete_next].
    change (default 0 (head (i :: choices))) with i.
    change (tail (i :: choices)) with choices.
    rewrite Nat.mod_small by done. by rewrite Hi, Hchoices.
Qed.

Lemma schedule_reaches (order : list nat) (n : nat) :
  order ≡ₚ seq 0 n → ∃ choices, schedule choices n = order.
Proof.
  intros Hperm. destruct (complete_next_reaches order (seq 0 n) Hperm)
    as [choices Hchoices].
  exists choices. unfold schedule. by rewrite length_seq in Hchoices.
Qed.


(** Whatever the outcome of the executor call, [ainvoke] returns a record,
    which carries the agent and the task. *)
Lemma ainvoke_returns name job start_time end_time :
  ∃ r, ainvoke name job start_time end_time = Returned r
       ∧ agent r = name ∧ task r = job.
Proof.
  destruct (executor_invoke name job) as [output|e] eqn:Hex.
  - rewrite (ainvoke_returned _ _ output) by done. by eexists.
  - rewrite (ainvoke_raised _ _ e) by done. by eexists.
Qed.

(** [research] returns, whatever the executors do and whatever the order of
    completion, with the results of its three agents in the order of the
    agents. *)
Lemma research_returns (subject : string) (order : list nat) (w : World) :
  order ≡ₚ [0; 1; 2] →
  ∃ report w', research subject order w = (Some report, w')
    ∧ agent <$> search_results report = ["搜索专家-1"; "搜索专家-2"; "数据分析师"].
Proof.
  intros Hperm. unfold research. rewrite bind_run, now_run. cbn [fst snd].
  destruct (fan_out_run (search_tasks subject) order (advance 1 w))
    as (results & w1 & Hrun & _ & Hlen & Hall); [done |].
  rewrite bind_run, Hrun. cbn [fst snd].
  rewrite bind_run.
  destruct (summarizer_ainvoke "总结专家" results w1) as [summary w2].
  cbn [fst snd]. rewrite bind_run, now_run. cbn [fst snd mret M_ret].
  eexists _, _. split; [done |]. cbn [search_results].
  destruct (Hall 0 _ eq_refl) as (j0 & _ & H0').
  destruct (Hall 1 _ eq_refl) as (j1 & _ & H1').
  destruct (Hall 2 _ eq_refl) as (j2 & _ & H2').
  destruct (ainvoke_returns "搜索专家-1" ("搜索关于'" +:+ subject +:+ "'的最新信息和发展动态")
              (clock (readings (advance 1 w) + 0))
              (clock (readings (advance 1 w) + length (search_tasks subject) + j0)))
    as (r0 & Hr0 & Ha0 & _).
  destruct (ainvoke_returns "搜索专家-2"
              ("搜索关于'" +:+ subject +:+ "'的技术细节、应用案例和实践经验")
              (clock (readings (advance 1 w) + 1))
              (clock (readings (advance 1 w) + length (search_tasks subject) + j1)))
    as (r1 & Hr1 & Ha1 & _).
  destruct (ainvoke_returns "数据分析师"
              ("分析'" +:+ subject +:+ "'相关的数据趋势、市场规模和发展前景")
              (clock (readings (advance 1 w) + 2))
              (clock (readings (advance 1 w) + length (search_tasks subject) + j2)))
    as (r2 & Hr2 & Ha2 & _).
  rewrite Hr0 in H0'. rewrite Hr1 in H1'. rewrite Hr2 in H2'.
  destruct results as [|x0 [|x1 [|x2 [|]]]]; try done.
  cbn in H0', H1', H2'. injection H0' as ->. injection H1' as ->. injection H2' as ->.
  cbn. by rewrite Ha0, Ha1, Ha2.
Qed.

Lemma no_success_to_keep (results : list TaskResult) :
  Forall (fun r => success r = false) results →
  filter (fun r => success r = true) results = [].
Proof.
  induction 1 as [|r results Hr _ IH]; [done |].
  rewrite filter_cons_False by (by rewrite Hr). done.
Qed.

(** The model is called exactly when some result has [success] true, and
    then once. *)
Lemma synthesis_needs_a_success (name : string) (results : list TaskResult) (w : World) :
  prompts (summarizer_ainvoke name results w).2 ≠ prompts w →
  Exists (fun r => success r = true) results.
Proof.
  intros Hcalled.
  destruct (decide (Exists (fun r => success r = true) results)) as [|Hnone]; [done |].
  apply not_Exists_Forall in Hnone; [| solve_decision].
  destruct Hcalled.
  unfold summarizer_ainvoke. rewrite bind_run, now_run. cbn [fst snd].
  rewrite no_success_to_keep.
  - by rewrite bind_run, now_run.
  - eapply Forall_impl; [done |]. cbn. intros r Hr. by destruct (success r).
Qed.

(** C5: when every result given to the summarizer has [success] false, it
    returns the record that says that all the tasks before it failed, with
    [success] false, and the list of prompts sent to the model is what it
    was: the model is not called. *)
Theorem all_failed_returns_sentinel (name : string) (results : list TaskResult) (w : World) :
  Forall (fun r => success r = false) results →
  summarizer_ainvoke name results w
  = ({| agent := name; task := summarizer_task; result := all_failed_text;
        duration := zero; timestamp := clock (S (readings w)); success := false |},
     {| readings := S (S (readings w)); prompts := prompts w |}).
Proof.
  intros Hfailed. unfold summarizer_ainvoke.
  rewrite bind_run, now_run. cbn [fst snd].
  replace (filter (fun r => success r = true) results) with (@nil TaskResult).
  - rewrite bind_run, now_run. unfold mret, M_ret, advance. cbn [fst snd readings prompts].
    by rewrite !Nat.add_1_r.
  - symmetry. by apply no_success_to_keep.
Qed.

End AsyncFacts.

(** *** The fan-out and the summarizer on a concrete run *)

Section AsyncRuns.
Import Py MultiAgentAsync Scenarios.

#[local] Existing Instance plain_interpreter.
#[local] Existing Instance ticking.

Lemma completion_order_is_a_permutation : completion_order ≡ₚ seq 0 3.
Proof.
  unfold completion_order. cbn [seq].
  rewrite (Permutation_swap 0 2 [1]). apply perm_skip, Permutation_swap.
Defined.

(** Three tasks, the second one timing out, the third one completing first:
    three results, in the order of the tasks. *)
Lemma fan_out_keeps_submission_order_witness :
  completion_order ≡ₚ seq 0 (length (search_tasks "AI"))
  ∧ (agent <$> default [] (fan_out (search_tasks "AI") completion_order fresh).1)
    = ["搜索专家-1"; "搜索专家-2"; "数据分析师"]
  ∧ (success <$> default [] (fan_out (search_tasks "AI") completion_order fresh).1)
    = [true; false; true]
  ∧ ∃ results w',
      fan_out (search_tasks "AI") completion_order fresh = (Some results, w')
      ∧ length results = 3.
Proof.
  split; [exact completion_order_is_a_permutation |].
  split; [by vm_compute |]. split; [by vm_compute |].
  destruct (fan_out_keeps_submission_order (search_tasks "AI") completion_order fresh
              completion_order_is_a_permutation)
    as (results & w' & Hrun & Hlen & _).
  exists results, w'. split; assumption.
Defined.



(** Two failed results: the sentinel, and no prompt sent. *)
Lemma all_failed_returns_sentinel_witness :
  let results := [failed_result "搜索专家-1"; failed_result "搜索专家-2"] in
  Forall (fun r => success r = false) results
  ∧ summarizer_ainvoke "总结专家" results fresh
    = ({| agent := "总结专家"; task := summarizer_task; result := all_failed_text;
          duration := zero; timestamp := clock 1; success := false |},
       {| readings := 2; prompts := [] |}).
Proof.
  intros results.
  assert (Forall (fun r => success r = false) results) as Hfailed
    by (repeat constructor).
  split; [exact Hfailed |].
  exact (all_failed_returns_sentinel "总结专家" results fresh Hfailed).
Defined.

End AsyncRuns.

(* ===================================================================== *)
(** * Part III: further properties of the scripts                         *)
(* ===================================================================== *)

(** ** More on the ReAct graph of [ReactAgent.py] *)

Section ReactSteps.
Import Py Graph ReactAgent ReactLog.
Context `{Interpreter} `{Reasoning}.

(** What a Thinking step does to a state built by [state_of]. *)
Lemma step_agent_state_of ms n :
  step workflow "agent" (state_of ms n)
  = match llm_invoke (VList ms) with
    | Raised x => Stop (Failed x)
    | Returned reply =>
        Goto (if contains "Final Answer" reply || bool_decide (5 ≤ n + 1)%Z
              then END else Node "tools")
             (state_of (ms ++ [assistant reply]) (n + 1))
    end.
Proof.
  destruct (llm_invoke (VList ms)) as [reply|x] eqn:Hllm.
  - destruct (contains "Final Answer" reply) eqn:Hfinal; cbn [orb].
    + by rewrite (think_stop ms n reply) by auto.
    + case_bool_decide.
      * by rewrite (think_stop ms n reply) by auto.
      * by rewrite (think_continue ms n reply) by (done || lia).
  - unfold step. rewrite workflow_agent.
    unfold agent_node, getitem, mbind, outcome_bind.
    by rewrite state_of_messages, Hllm.
Qed.

(** What an Acting step does to it. *)
Lemma step_tools_state_of ms n :
  step workflow "tools" (state_of ms n)
  = match last ms with
    | None => Stop (Failed IndexError)
    | Some m =>
        match observation (content m) with
        | Raised x => Stop (Failed x)
        | Returned obs => Goto (Node "agent") (state_of (ms ++ [tool_message obs]) n)
        end
    end.
Proof.
  destruct (last ms) as [m|] eqn:Hlast.
  - destruct (observation (content m)) as [obs|x] eqn:Hobs.
    + erewrite step_tools; [done | |].
      * eapply tool_node_observation; [apply state_of_messages | done | done].
      * apply merge_tool_update.
    + unfold step. rewrite workflow_tools.
      unfold tool_node, getitem, last_content, mbind, outcome_bind.
      by rewrite state_of_messages, Hlast, Hobs.
  - unfold step. rewrite workflow_tools.
    unfold tool_node, getitem, last_content, mbind, outcome_bind.
    by rewrite state_of_messages, Hlast.
Qed.

Lemma agent_steps_cons_agent trace : agent_steps ("agent" :: trace) = S (agent_steps trace).
Proof. unfold agent_steps. by rewrite filter_cons_True. Qed.

Lemma agent_steps_cons_tools trace : agent_steps ("tools" :: trace) = agent_steps trace.
Proof. unfold agent_steps. by rewrite filter_cons_False. Qed.

(** A run that finishes, from either node. *)
Lemma finished_run_log (limit : nat) : ∀ node ms n trace0 trace st,
  node = "agent" ∨ node = "tools" →
  run workflow limit node (state_of ms n) trace0 = (trace, Finished st) →
  ∃ visited added,
    trace = trace0 ++ visited
    ∧ st = state_of (ms ++ added) (n + Z.of_nat (agent_steps visited))
    ∧ role <$> added = role_of_node <$> visited.
Proof.
  induction limit as [|limit IH]; intros node ms n trace0 trace st Hnode Hrun; [done |].
  rewrite run_unfold in Hrun. destruct Hnode as [-> | ->].
  - rewrite step_agent_state_of in Hrun.
    destruct (llm_invoke (VList ms)) as [reply|x]; [| done].
    destruct (contains "Final Answer" reply || bool_decide (5 ≤ n + 1)%Z).
    + injection Hrun as <- <-. exists ["agent"], [assistant reply].
      split_and!; [done | | done]. rewrite agent_steps_cons_agent. done.
    + apply IH in Hrun as (visited & added & -> & -> & Hroles); [| by right].
      exists ("agent" :: visited), (assistant reply :: added).
      split_and!.
      * by rewrite <- app_assoc.
      * rewrite <- app_assoc, agent_steps_cons_agent. f_equal. lia.
      * cbn. by rewrite Hroles.
  - rewrite step_tools_state_of in Hrun.
    destruct (last ms) as [m|]; [| done].
    destruct (observation (content m)) as [obs|x]; [| done].
    apply IH in Hrun as (visited & added & -> & -> & Hroles); [| by left].
    exists ("tools" :: visited), (tool_message obs :: added).
    split_and!.
    + by rewrite <- app_assoc.
    + by rewrite <- app_assoc, agent_steps_cons_tools.
    + cbn. by rewrite Hroles.
Qed.

(** X1: whenever a run of the ReAct graph finishes, the state it returns has
    the messages of the input first, unchanged and in order, followed by
    exactly one message per node invoked, an "assistant" message for every
    agent step and a "tool" message for every tools step, in the order of the
    trace; the counter went up by one per agent step. *)
Theorem finished_run_mirrors_trace (ms : list message) (n : Z) trace st :
  app_invoke (state_of ms n) = (trace, Finished st) →
  ∃ added,
    st = state_of (ms ++ added) (n + Z.of_nat (agent_steps trace))
    ∧ role <$> added = role_of_node <$> trace.
Proof.
  rewrite invoke_state_of. intros Hrun.
  apply finished_run_log in Hrun as (visited & added & -> & -> & Hroles); [| by left].
  by exists added.
Qed.

(** Rounds of Thinking and Acting until the counter stops them, any of which
    may end the run before. *)
Lemma bounded_rounds (k : nat) : ∀ ms n limit trace0,
  (4 ≤ n + Z.of_nat k)%Z →
  ∃ visited e,
    run workflow (2 * k + 1 + limit) "agent" (state_of ms n) trace0
    = (trace0 ++ visited, e)
    ∧ (length visited ≤ 2 * k + 1)%nat ∧ (agent_steps visited ≤ k + 1)%nat ∧ ended e.
Proof.
  induction k as [|k IH]; intros ms n limit trace0 Hn.
  - change (2 * 0 + 1 + limit) with (S limit).
    rewrite run_unfold, step_agent_state_of.
    destruct (llm_invoke (VList ms)) as [reply|x].
    + rewrite (bool_decide_true (5 ≤ n + 1)%Z), orb_true_r by lia.
      exists ["agent"], (Finished (state_of (ms ++ [assistant reply]) (n + 1))).
      split_and!; [done | cbn; lia | by rewrite agent_steps_cons_agent | done].
    + exists ["agent"], (Failed x).
      split_and!; [done | cbn; lia | by rewrite agent_steps_cons_agent | done].
  - replace (2 * S k + 1 + limit) with (S (S (2 * k + 1 + limit))) by lia.
    rewrite run_unfold, step_agent_state_of.
    destruct (llm_invoke (VList ms)) as [reply|x].
    + destruct (contains "Final Answer" reply || bool_decide (5 ≤ n + 1)%Z).
      * exists ["agent"], (Finished (state_of (ms ++ [assistant reply]) (n + 1))).
        split_and!; [done | cbn; lia | rewrite agent_steps_cons_agent; cbn; lia | done].
      * rewrite run_unfold, step_tools_state_of, last_snoc. cbn [content assistant].
        destruct (observation reply) as [obs|x].
        -- destruct (IH ((ms ++ [assistant reply]) ++ [tool_message obs]) (n + 1)%Z limit
                       ((trace0 ++ ["agent"]) ++ ["tools"]))
             as (visited & e & Hrun & Hlen & Hsteps & Hended); [lia |].
           exists ("agent" :: "tools" :: visited), e. rewrite Hrun.
           split_and!.
           ++ by rewrite <- !app_assoc.
           ++ cbn. lia.
           ++ rewrite agent_steps_cons_agent, agent_steps_cons_tools. lia.
           ++ done.
        -- exists ["agent"; "tools"], (Failed x).
           split_and!; [by rewrite <- app_assoc | cbn; lia | | done].
           rewrite agent_steps_cons_agent, agent_steps_cons_tools. cbn. lia.
    + exists ["agent"], (Failed x).
      split_and!; [done | cbn; lia | rewrite agent_steps_cons_agent; cbn; lia | done].
Qed.

(** X2: from a counter that is not negative, whatever the model answers and
    whatever the tools do, the run of the ReAct graph comes to an end by
    itself: it finishes or a node raises, after at most nine node
    invocations of which at most five are Thinking steps; it neither runs
    into the step limit of the runtime nor meets an unroutable label. *)
Theorem react_run_comes_to_an_end (ms : list message) (n : Z) :
  (0 ≤ n)%Z →
  ∃ trace e,
    app_invoke (state_of ms n) = (trace, e)
    ∧ (length trace ≤ 9)%nat ∧ (agent_steps trace ≤ 5)%nat ∧ ended e.
Proof.
  intros Hn. rewrite invoke_state_of.
  destruct (bounded_rounds 4 ms n 16 []) as (visited & e & Hrun & Hlen & Hsteps & Hended);
    [lia |].
  exists visited, e. split_and!; [exact Hrun | exact Hlen | exact Hsteps | done].
Qed.

(** X3: when the last message contains "Action: Search", the tool node runs
    the search tool on the text after the last "Action Input:" and returns
    its result as the observation; it does so whether or not the message
    also contains "Action: Calculator", so the calculator is not evaluated
    and the step cannot raise. *)
Theorem search_directive_comes_first (st : gmap string pyval) ms m :
  st !! "messages" = Some (VList ms) → last ms = Some m →
  contains "Action: Search" (content m) = true →
  tool_node st
  = Returned {[ "messages" :=
                  VList [tool_message
                           ("Observation: " +:+ search_tool (action_input (content m)))] ]}.
Proof.
  intros Hst Hlast Hsearch.
  eapply tool_node_observation; [done | done |].
  unfold observation, tool_result. by rewrite Hsearch.
Qed.

(** X4: an input without the key "iterations".  The first Thinking step
    calls the model all the same; if the model answers, the node then raises
    KeyError on "iterations" and the run ends with it, after one node and
    with nothing merged. *)
Theorem missing_counter_fails_after_the_model_call (ms : list message) :
  app_invoke {[ "messages" := VList ms ]}
  = (["agent"],
     Failed match llm_invoke (VList ms) with
            | Returned _ => KeyError "iterations"
            | Raised x => x
            end).
Proof.
  unfold app_invoke, invoke.
  change (entry_point workflow) with (Some "agent").
  change (schema workflow) with ReActState.
  change (apply_writes ReActState {[ "messages" := VList ms ]} (blank ReActState))
    with (Returned (A := gmap string pyval) {[ "messages" := VList ms ]}).
  unfold recursion_limit. rewrite run_unfold. unfold step.
  rewrite workflow_agent. unfold agent_node, getitem, mbind, outcome_bind.
  rewrite lookup_singleton_eq.
  destruct (llm_invoke (VList ms)) as [reply|x]; [| done].
  by rewrite lookup_singleton_ne.
Qed.

End ReactSteps.

(** ** The summarizer and the team of [multi_agent_async.py] *)

Section TeamFacts.
Import Py MultiAgentAsync.
Context `{Interpreter} `{Environment}.

(** [SummarizerAgent.ainvoke], run: two readings of the clock, and a prompt
    only when a result has [success] true. *)
Lemma summarizer_run (name : string) (results : list TaskResult) (w : World) :
  summarizer_ainvoke name results w
  = match filter (fun r => success r = true) results with
    | [] =>
        ({| agent := name; task := summarizer_task; result := all_failed_text;
            duration := zero; timestamp := clock (S (readings w));
            success := false |},
         {| readings := S (S (readings w)); prompts := prompts w |})
    | r :: kept =>
        let prompt :=
          report_prompt (join (newline +:+ newline) (entry <$> r :: kept)) in
        ({| agent := name; task := summarizer_task;
            result := match llm_invoke prompt with
                      | Returned content => content
                      | Raised e => "整合失败: " +:+ exn_text e
                      end;
            duration := total_seconds (clock (readings w)) (clock (S (readings w)));
            timestamp := clock (S (readings w));
            success := match llm_invoke prompt with
                       | Returned _ => true
                       | Raised _ => false
                       end |},
         {| readings := S (S (readings w)); prompts := prompts w ++ [prompt] |})
    end.
Proof.
  unfold summarizer_ainvoke. rewrite bind_run, now_run. cbn [fst snd].
  destruct (filter (fun r => success r = true) results) as [|r kept].
  - rewrite bind_run, now_run. unfold mret, M_ret, advance.
    cbn [fst snd readings prompts]. by rewrite !Nat.add_1_r.
  - cbn zeta. rewrite bind_run. unfold ask at 1. cbn [fst snd].
    rewrite bind_run, now_run. unfold mret, M_ret, advance.
    cbn [fst snd readings prompts]. rewrite !Nat.add_1_r.
    by destruct (llm_invoke _).
Qed.

(** X10: when some result has [success] true, the summarizer sends the model
    one prompt, made of the entries of the successful results only, in their
    order; it never raises: the reply of the model is the result of a record
    with [success] true, an exception of the model the text "整合失败: ..." of
    a record with [success] false. *)
Theorem synthesis_asks_once_about_the_successes
    (name : string) (results : list TaskResult) (w : World) :
  Exists (fun r => success r = true) results →
  let prompt :=
    report_prompt (join (newline +:+ newline)
                     (entry <$> filter (fun r => success r = true) results)) in
  summarizer_ainvoke name results w
  = ({| agent := name; task := summarizer_task;
        result := match llm_invoke prompt with
                  | Returned content => content
                  | Raised e => "整合失败: " +:+ exn_text e
                  end;
        duration := total_seconds (clock (readings w)) (clock (S (readings w)));
        timestamp := clock (S (readings w));
        success := match llm_invoke prompt with
                   | Returned _ => true
                   | Raised _ => false
                   end |},
     {| readings := S (S (readings w)); prompts := prompts w ++ [prompt] |}).
Proof.
  intros Hsome prompt. rewrite summarizer_run. subst prompt.
  destruct (filter (fun r => success r = true) results) as [|r kept] eqn:Hkept;
    [| done].
  apply Exists_exists in Hsome as (r & Hr & Hsuccess).
  assert (r ∈ filter (fun r => success r = true) results) as Hin
    by by apply list_elem_of_filter.
  rewrite Hkept in Hin. by apply elem_of_nil in Hin.
Qed.

(** The three results of the fan-out of [research]: each is the record its
    agent's [ainvoke] returned. *)
Lemma research_fan_out (subject : string) (order : list nat) (w : World) :
  order ≡ₚ [0; 1; 2] →
  ∃ r0 r1 r2 w' s0 e0 s1 e1 s2 e2,
    fan_out (search_tasks subject) order w = (Some [r0; r1; r2], w')
    ∧ prompts w' = prompts w
    ∧ ainvoke "搜索专家-1" ("搜索关于'" +:+ subject +:+ "'的最新信息和发展动态") s0 e0
      = Returned r0
    ∧ ainvoke "搜索专家-2"
        ("搜索关于'" +:+ subject +:+ "'的技术细节、应用案例和实践经验") s1 e1
      = Returned r1
    ∧ ainvoke "数据分析师"
        ("分析'" +:+ subject +:+ "'相关的数据趋势、市场规模和发展前景") s2 e2
      = Returned r2.
Proof.
  intros Hperm.
  destruct (fan_out_run (search_tasks subject) order w)
    as (results & w' & Hrun & Hprompts & Hlen & Hall); [done |].
  destruct (Hall 0 _ eq_refl) as (j0 & _ & H0').
  destruct (Hall 1 _ eq_refl) as (j1 & _ & H1').
  destruct (Hall 2 _ eq_refl) as (j2 & _ & H2').
  destruct (ainvoke_returns "搜索专家-1" ("搜索关于'" +:+ subject +:+ "'的最新信息和发展动态")
              (clock (readings w + 0))
              (clock (readings w + length (search_tasks subject) + j0)))
    as (r0 & Hr0 & _).
  destruct (ainvoke_returns "搜索专家-2"
              ("搜索关于'" +:+ subject +:+ "'的技术细节、应用案例和实践经验")
              (clock (readings w + 1))
              (clock (readings w + length (search_tasks subject) + j1)))
    as (r1 & Hr1 & _).
  destruct (ainvoke_returns "数据分析师"
              ("分析'" +:+ subject +:+ "'相关的数据趋势、市场规模和发展前景")
              (clock (readings w + 2))
              (clock (readings w + length (search_tasks subject) + j2)))
    as (r2 & Hr2 & _).
  rewrite Hr0 in H0'. rewrite Hr1 in H1'. rewrite Hr2 in H2'.
  destruct results as [|x0 [|x1 [|x2 [|]]]]; try done.
  cbn in H0', H1', H2'. injection H0' as ->. injection H1' as ->. injection H2' as ->.
  exists r0, r1, r2, w'. do 6 eexists. split_and!; done.
Qed.

(** [research], run: the fan-out, the summarizer on its results, the
    report. *)
Lemma research_run (subject : string) (order : list nat) (w : World)
    (results : list TaskResult) (w1 : World) :
  fan_out (search_tasks subject) order (advance 1 w) = (Some results, w1) →
  research subject order w
  = (Some {| topic := subject; search_results := results;
             final_summary := (summarizer_ainvoke "总结专家" results w1).1;
             total_duration :=
               total_seconds (clock (readings w))
                 (clock (readings (summarizer_ainvoke "总结专家" results w1).2));
             report_timestamp :=
               clock (readings (summarizer_ainvoke "总结专家" results w1).2);
             report_success :=
               success (summarizer_ainvoke "总结专家" results w1).1 |},
     advance 1 (summarizer_ainvoke "总结专家" results w1).2).
Proof.
  intros Hrun. unfold research. rewrite bind_run, now_run. cbn [fst snd].
  rewrite bind_run, Hrun. cbn [fst snd]. rewrite bind_run.
  destruct (summarizer_ainvoke "总结专家" results w1) as [summary w2].
  cbn [fst snd]. by rewrite bind_run, now_run.
Qed.

(** X11: when the executor of every agent raises, [research] still returns a
    report, whatever the order of completion: its three results have
    [success] false, its summary is the record that says that all the tasks
    failed, the report has [success] false, and no prompt was sent to the
    model of the summarizer. *)
Theorem research_with_every_agent_failing
    (subject : string) (order : list nat) (w : World) :
  order ≡ₚ [0; 1; 2] →
  (∀ name job, ∃ e, executor_invoke name job = Raised e) →
  ∃ report w',
    research subject order w = (Some report, w')
    ∧ length (search_results report) = 3
    ∧ Forall (fun r => success r = false) (search_results report)
    ∧ result (final_summary report) = all_failed_text
    ∧ report_success report = false
    ∧ prompts w' = prompts w.
Proof.
  intros Hperm Hdown.
  destruct (research_fan_out subject order (advance 1 w) Hperm)
    as (r0 & r1 & r2 & w1 & s0 & e0 & s1 & e1 & s2 & e2
        & Hrun & Hprompts & Hr0 & Hr1 & Hr2).
  rewrite (research_run _ _ _ _ _ Hrun). eexists _, _. split; [done |].
  cbn [search_results final_summary report_success].
  assert (Forall (fun r => success r = false) [r0; r1; r2]) as Hfailed.
  { destruct (Hdown "搜索专家-1" ("搜索关于'" +:+ subject +:+ "'的最新信息和发展动态"))
      as [x0 Hx0].
    destruct (Hdown "搜索专家-2"
                ("搜索关于'" +:+ subject +:+ "'的技术细节、应用案例和实践经验"))
      as [x1 Hx1].
    destruct (Hdown "数据分析师"
                ("分析'" +:+ subject +:+ "'相关的数据趋势、市场规模和发展前景"))
      as [x2 Hx2].
    rewrite (ainvoke_raised _ _ x0) in Hr0 by done.
    rewrite (ainvoke_raised _ _ x1) in Hr1 by done.
    rewrite (ainvoke_raised _ _ x2) in Hr2 by done.
    injection Hr0 as <-. injection Hr1 as <-. injection Hr2 as <-.
    by repeat constructor. }
  rewrite summarizer_run, (no_success_to_keep _ Hfailed).
  cbn [fst snd success result prompts advance]. split_and!; done.
Qed.

(** X12: [research] returns a report whatever the executors and the model
    do, for every order of completion, with the results of its three agents
    in the order of the agents; the summarizer sends at most one prompt.
    The report has [success] true only when some agent's result has [success]
    true and the model answered the one prompt, its answer being the result
    of the summary. *)
Theorem research_always_reports (subject : string) (order : list nat) (w : World) :
  order ≡ₚ [0; 1; 2] →
  ∃ report w',
    research subject order w = (Some report, w')
    ∧ topic report = subject
    ∧ agent <$> search_results report = ["搜索专家-1"; "搜索专家-2"; "数据分析师"]
    ∧ (prompts w' = prompts w ∨ ∃ prompt, prompts w' = prompts w ++ [prompt])
    ∧ (report_success report = true →
       Exists (fun r => success r = true) (search_results report)
       ∧ ∃ prompt,
           prompts w' = prompts w ++ [prompt]
           ∧ llm_invoke prompt = Returned (result (final_summary report))).
Proof.
  intros Hperm.
  destruct (research_fan_out subject order (advance 1 w) Hperm)
    as (r0 & r1 & r2 & w1 & s0 & e0 & s1 & e1 & s2 & e2
        & Hrun & Hprompts & Hr0 & Hr1 & Hr2).
  rewrite (research_run _ _ _ _ _ Hrun). eexists _, _. split; [done |].
  cbn [topic search_results final_summary report_success].
  split; [done |]. split.
  { destruct (ainvoke_returns "搜索专家-1"
                ("搜索关于'" +:+ subject +:+ "'的最新信息和发展动态") s0 e0)
      as (x0 & Hx0 & Ha0 & _).
    destruct (ainvoke_returns "搜索专家-2"
                ("搜索关于'" +:+ subject +:+ "'的技术细节、应用案例和实践经验") s1 e1)
      as (x1 & Hx1 & Ha1 & _).
    destruct (ainvoke_returns "数据分析师"
                ("分析'" +:+ subject +:+ "'相关的数据趋势、市场规模和发展前景") s2 e2)
      as (x2 & Hx2 & Ha2 & _).
    rewrite Hx0 in Hr0. rewrite Hx1 in Hr1. rewrite Hx2 in Hr2.
    injection Hr0 as <-. injection Hr1 as <-. injection Hr2 as <-.
    cbn. by rewrite Ha0, Ha1, Ha2. }
  rewrite summarizer_run.
  destruct (filter (fun r => success r = true) [r0; r1; r2]) as [|r kept] eqn:Hkept.
  - cbn [fst snd success prompts advance]. split; [by left | done].
  - cbn zeta. cbn [fst snd success result prompts advance]. rewrite Hprompts.
    split; [right; by eexists |].
    intros Hsuccess. split.
    + apply Exists_exists. exists r.
      assert (r ∈ filter (fun r => success r = true) [r0; r1; r2]) as Hin
        by (rewrite Hkept; apply list_elem_of_here).
      by apply list_elem_of_filter in Hin as [? ?].
    + eexists. split; [done |].
      by destruct (llm_invoke _).
Qed.

End TeamFacts.

(** ** The handlers and the router of [mcp_travel_langgraph.py] *)

Section TravelSteps.
Import Py Graph Travel.
Context `{Services}.

#[local] Ltac listed :=
  repeat first [apply list_elem_of_here | apply list_elem_of_further].

Lemma end_or_label (label : string) :
  (if String.eqb label "end" then "end" else label) = label.
Proof. by destruct (String.eqb_spec label "end") as [-> |]. Qed.

Lemma step_map_labels (c label : string) :
  step_map !! c = Some label →
  label ∈ ["weather"; "attractions"; "restaurants"; "hotels"; "schedule";
           "budget"; "generate"; "review"; "end"].
Proof.
  unfold step_map. intros Hc.
  repeat (apply lookup_insert_Some in Hc as [[_ <-] | [_ Hc]];
          [listed |]).
  apply lookup_singleton_Some in Hc as [_ <-]. listed.
Qed.

(** X13: the label [route_next] returns is read off the key "current_step"
    alone: "weather" when the key is absent, the entry of the step map for a
    string, "end" for a string that is no key of the map and for a boolean;
    a list or a dict cannot be looked up and raises.  The label is one of
    the nine step labels; it is never "collect". *)
Theorem route_next_reads_current_step (st : gmap string (pyval data)) :
  route_next st
  = match st !! "current_step" with
    | None => Returned "weather"
    | Some (VStr c) => Returned (default "end" (step_map !! c))
    | Some (VBool _) => Returned "end"
    | Some (VData _) => Raised TypeError
    end
  ∧ ∀ label, route_next st = Returned label →
      label ≠ "collect"
      ∧ label ∈ ["weather"; "attractions"; "restaurants"; "hotels"; "schedule";
                 "budget"; "generate"; "review"; "end"].
Proof.
  assert (route_next st
          = match st !! "current_step" with
            | None => Returned "weather"
            | Some (VStr c) => Returned (default "end" (step_map !! c))
            | Some (VBool _) => Returned "end"
            | Some (VData _) => Raised TypeError
            end) as Hroute.
  { unfold route_next. destruct (st !! "current_step") as [[c | b | d]|]; cbn;
      [by rewrite end_or_label | done | done | done]. }
  split; [done |]. rewrite Hroute. intros label Hlabel.
  assert (label ∈ ["weather"; "attractions"; "restaurants"; "hotels"; "schedule";
                   "budget"; "generate"; "review"; "end"]) as Hin.
  { destruct (st !! "current_step") as [[c | b | d]|]; [| | done |].
    - injection Hlabel as <-.
      destruct (step_map !! c) as [l|] eqn:Hc; [| listed].
      by eapply step_map_labels.
    - injection Hlabel as <-. listed.
    - injection Hlabel as <-. listed. }
  split; [| done]. intros ->.
  repeat (apply elem_of_cons in Hin as [? | Hin]; [done |]).
  by apply elem_of_nil in Hin.
Qed.

(** The nodes of the graph and their handlers. *)
Lemma workflow_nodes (n : string) (h : gmap string (pyval data) → outcome _) :
  nodes workflow !! n = Some h →
  (n, h) ∈ [ ("collect", collect_requirements); ("weather", check_weather);
             ("attractions", find_attractions); ("restaurants", find_restaurants);
             ("hotels", find_hotels); ("schedule", create_schedule);
             ("budget", calculate_budget); ("generate", generate_final_plan);
             ("review", review_plan) ].
Proof.
  cbn. intros Hn.
  repeat (apply lookup_insert_Some in Hn as [[<- <-] | [_ Hn]];
          [listed |]).
  by rewrite lookup_empty in Hn.
Qed.

(** What a handler that returns has done to the state: it has stored a step
    name and written one more key. *)
Lemma handler_update (n : string) h (st st' : gmap string (pyval data)) :
  nodes workflow !! n = Some h → h st = Returned st' →
  ∃ c field v,
    st' = <["current_step" := VStr c]> (<[field := v]> st)
    ∧ (n, c, field) ∈
        [ ("collect", "weather_check", "messages");
          ("weather", "find_attractions", "weather_info");
          ("attractions", "find_restaurants", "attractions");
          ("restaurants", "find_hotels", "restaurants");
          ("hotels", "create_schedule", "hotels");
          ("schedule", "calculate_budget", "daily_schedule");
          ("budget", "generate_plan", "budget_breakdown");
          ("generate", "review", "final_plan");
          ("review", "end", "revision_needed") ].
Proof.
  intros Hn%workflow_nodes Hrun.
  repeat (apply elem_of_cons in Hn as [[= -> ->] | Hn];
          [revert Hrun |]); [.. | by apply elem_of_nil in Hn].
  - unfold collect_requirements, mbind, outcome_bind.
    destruct (requirements_dialogue st) as [v|]; [| done]. intros [= <-].
    exists "weather_check", "messages", (VData v). split; [| listed].
    by apply insert_insert_ne.
  - unfold check_weather, mbind, outcome_bind.
    destruct (weather_lookup st) as [v|]; [| done]. intros [= <-].
    eexists _, _, _. split; [done | listed].
  - unfold find_attractions, mbind, outcome_bind.
    destruct (attraction_search st) as [v|]; [| done]. intros [= <-].
    eexists _, _, _. split; [done | listed].
  - unfold find_restaurants, mbind, outcome_bind.
    destruct (restaurant_search st) as [v|]; [| done]. intros [= <-].
    eexists _, _, _. split; [done | listed].
  - unfold find_hotels, mbind, outcome_bind.
    destruct (hotel_search st) as [v|]; [| done]. intros [= <-].
    eexists _, _, _. split; [done | listed].
  - unfold create_schedule, mbind, outcome_bind.
    destruct (schedule_dialogue st) as [v|]; [| done]. intros [= <-].
    eexists _, _, _. split; [done | listed].
  - unfold calculate_budget, mbind, outcome_bind.
    destruct (budget_table st) as [v|]; [| done]. intros [= <-].
    eexists _, _, _. split; [done | listed].
  - unfold generate_final_plan, mbind, outcome_bind.
    destruct (plan_text st) as [v|]; [| done]. intros [= <-].
    eexists _, _, _. split; [done | listed].
  - unfold review_plan. intros [= <-].
    exists "end", "revision_needed", (VBool false). split; [| listed].
    by apply insert_insert_ne.
Qed.

(** What a handler has done when it returns, given the value it writes. *)
Lemma written_state (c field : string) (written : outcome (pyval data))
    (st st' : gmap string (pyval data)) :
  field ≠ "current_step" →
  (v ← written; Returned (<["current_step" := VStr c]> (<[field := v]> st)))
  = Returned st' →
  (∃ v, written = Returned v ∧ st' !! field = Some v)
  ∧ st' !! "current_step" = Some (VStr c)
  ∧ ∀ k, k ≠ "current_step" → k ≠ field → st' !! k = st !! k.
Proof.
  intros Hfield. unfold mbind, outcome_bind.
  destruct written as [v|e]; [| done]. intros [= <-]. split_and!.
  - exists v. split; [done |].
    rewrite lookup_insert_ne by done. apply lookup_insert_eq.
  - apply lookup_insert_eq.
  - intros k Hk1 Hk2. by rewrite !lookup_insert_ne.
Qed.

(** X14: what each of the nine handlers of the graph does to the state.  It
    asks its collaborator for one value; when that call raises, so does the
    handler; otherwise it returns the state it got with two keys written,
    "current_step" with the name of a step and one key of its own with the
    value: the messages, the weather, the attractions, the restaurants, the
    hotels, an empty schedule, the budget table, the plan, or
    [revision_needed] false.  Every other key is what it was; so are the
    destination, the duration, the budget, the preferences and the travel
    type, after any handler. *)
Theorem handlers_keep_the_request (n : string) h (st : gmap string (pyval data)) :
  nodes workflow !! n = Some h →
  ∃ c field written,
    (n, c, field, written) ∈
      [ ("collect", "weather_check", "messages",
         @VData data <$> requirements_dialogue st);
        ("weather", "find_attractions", "weather_info",
         @VData data <$> weather_lookup st);
        ("attractions", "find_restaurants", "attractions",
         @VData data <$> attraction_search st);
        ("restaurants", "find_hotels", "restaurants",
         @VData data <$> restaurant_search st);
        ("hotels", "create_schedule", "hotels",
         @VData data <$> hotel_search st);
        ("schedule", "calculate_budget", "daily_schedule",
         (fun _ => VData empty_list) <$> schedule_dialogue st);
        ("budget", "generate_plan", "budget_breakdown",
         @VData data <$> budget_table st);
        ("generate", "review", "final_plan", @VStr data <$> plan_text st);
        ("review", "end", "revision_needed", Returned (VBool false)) ]
    ∧ h st
      = (v ← written;
         Returned (<["current_step" := VStr c]> (<[field := v]> st)))
    ∧ ∀ st', h st = Returned st' →
        (∃ v, written = Returned v ∧ st' !! field = Some v)
        ∧ st' !! "current_step" = Some (VStr c)
        ∧ (∀ k, k ≠ "current_step" → k ≠ field → st' !! k = st !! k)
        ∧ ∀ k, k ∈ ["destination"; "duration"; "budget"; "preferences";
                    "travel_type"] →
               st' !! k = st !! k.
Proof.
  intros Hn%workflow_nodes.
  assert (∀ c field written,
            field ∈ ["messages"; "weather_info"; "attractions"; "restaurants";
                     "hotels"; "daily_schedule"; "budget_breakdown";
                     "final_plan"; "revision_needed"] →
            h st = (v ← written;
                    Returned (<["current_step" := VStr c]> (<[field := v]> st))) →
            ∀ st', h st = Returned st' →
              (∃ v, written = Returned v ∧ st' !! field = Some v)
              ∧ st' !! "current_step" = Some (VStr c)
              ∧ (∀ k, k ≠ "current_step" → k ≠ field → st' !! k = st !! k)
              ∧ ∀ k, k ∈ ["destination"; "duration"; "budget"; "preferences";
                          "travel_type"] →
                     st' !! k = st !! k) as Hwritten.
  { intros c field written Hfield Heq st' Hrun. rewrite Heq in Hrun.
    assert (field ≠ "current_step") as Hne.
    { intros ->. repeat (apply elem_of_cons in Hfield as [? | Hfield]; [done |]).
      by apply elem_of_nil in Hfield. }
    destruct (written_state c field written st st' Hne Hrun) as (Hv & Hc & Hrest).
    split_and!; [done | done | done |].
    intros k Hk. apply Hrest.
    - intros ->. repeat (apply elem_of_cons in Hk as [? | Hk]; [done |]).
      by apply elem_of_nil in Hk.
    - intros ->.
      repeat (apply elem_of_cons in Hfield as [-> | Hfield];
              [repeat (apply elem_of_cons in Hk as [? | Hk]; [done |]);
               by apply elem_of_nil in Hk |]).
      by apply elem_of_nil in Hfield. }
  repeat (apply elem_of_cons in Hn as [[= -> ->] | Hn];
          [eexists _, _, _; split; [listed |];
           split; [| apply Hwritten; [listed |]] |]);
    [.. | by apply elem_of_nil in Hn].
  all: unfold collect_requirements, check_weather, find_attractions,
         find_restaurants, find_hotels, create_schedule, calculate_budget,
         generate_final_plan, review_plan, mbind, outcome_bind, fmap,
         outcome_fmap.
  all: try (by destruct (weather_lookup st)).
  all: try (by destruct (attraction_search st)).
  all: try (by destruct (restaurant_search st)).
  all: try (by destruct (hotel_search st)).
  all: try (by destruct (schedule_dialogue st)).
  all: try (by destruct (budget_table st)).
  all: try (by destruct (plan_text st)).
  all: try (destruct (requirements_dialogue st); [| done]).
  all: f_equal; by apply insert_insert_ne.
Qed.

(** The merge of the graph runtime gives the handler's update back: the
    handler returned the whole state, and the keys it wrote are keys of the
    schema. *)
Lemma travel_merge (n : string) h (st update : gmap string (pyval data)) :
  nodes workflow !! n = Some h → h st = Returned update →
  apply_writes EnhancedTravelState update st = Returned update.
Proof.
  intros Hn Hrun.
  destruct (handler_update n h st update Hn Hrun) as (c & field & v & -> & Hin).
  destruct (apply_writes_plain _ travel_schema_plain
              (<["current_step" := VStr c]> (<[field := v]> st)) st)
    as (st' & -> & Hst').
  f_equal. apply map_eq. intros k. rewrite Hst'.
  assert (field ∈ key <$> EnhancedTravelState) as Hfield.
  { repeat (apply elem_of_cons in Hin as [[= _ _ ->] | Hin]; [cbn; listed |]).
    by apply elem_of_nil in Hin. }
  destruct (decide (k = "current_step")) as [-> | Hk1].
  { rewrite lookup_insert_eq. rewrite bool_decide_true; [done |]. cbn. listed. }
  rewrite lookup_insert_ne by done.
  destruct (decide (k = field)) as [-> | Hk2].
  { rewrite lookup_insert_eq. by rewrite bool_decide_true. }
  rewrite lookup_insert_ne by done.
  destruct (st !! k); [by case_bool_decide | done].
Qed.

#[local] Ltac registered :=
  cbn; rewrite ?lookup_insert_ne by done; apply lookup_insert_eq.

(** A step of the graph, when the handler returns: the label comes from the
    step name the handler stored, the target from the edge map of the
    node. *)
Lemma travel_step (n : string) h (st update : gmap string (pyval data)) :
  nodes workflow !! n = Some h → h st = Returned update →
  ∃ c path_map,
    (n, c, path_map) ∈
      [ ("collect", "weather_check", collect_path_map);
        ("weather", "find_attractions",
         {[ "attractions" := Node "attractions"; "end" := END ]});
        ("attractions", "find_restaurants",
         {[ "restaurants" := Node "restaurants"; "end" := END ]});
        ("restaurants", "find_hotels", {[ "hotels" := Node "hotels"; "end" := END ]});
        ("hotels", "create_schedule", {[ "schedule" := Node "schedule"; "end" := END ]});
        ("schedule", "calculate_budget", {[ "budget" := Node "budget"; "end" := END ]});
        ("budget", "generate_plan", {[ "generate" := Node "generate"; "end" := END ]});
        ("generate", "review", {[ "review" := Node "review"; "end" := END ]});
        ("review", "end", {[ "end" := END ]}) ]
    ∧ step workflow n st
      = match path_map !! default "end" (step_map !! c) with
        | Some t => Goto t update
        | None => Stop (Unroutable n (default "end" (step_map !! c)))
        end.
Proof.
  intros Hn Hrun. unfold step. rewrite Hn, Hrun.
  change (schema workflow) with EnhancedTravelState.
  rewrite (travel_merge n h st update Hn Hrun).
  destruct (handler_update n h st update Hn Hrun) as (c & field & v & Hupdate & Hin).
  assert (route_next update = Returned (default "end" (step_map !! c))) as Hroute.
  { rewrite (route_next_current_step _ c); [by rewrite end_or_label |].
    rewrite Hupdate. apply lookup_insert_eq. }
  clear Hn Hrun Hupdate. unfold resolve.
  repeat (apply elem_of_cons in Hin as [[= -> -> _] | Hin];
          [eexists _, _; split; [listed |] |]);
    [.. | by apply elem_of_nil in Hin].
  all: unfold workflow; cbn [edges add_conditional_edges].
  all: rewrite ?lookup_insert_ne by done.
  all: by rewrite lookup_insert_eq, Hroute.
Qed.

(** X15: a step of the travel graph, from any of its nodes and any state.
    When the handler raises, the step ends the run with that exception.
    When it returns, no node hands over to another one: after "collect",
    "weather", "attractions", "restaurants", "hotels", "schedule" and
    "budget" the label of the router is the one of the step after the next
    ("attractions", "restaurants", "hotels", "schedule", "budget",
    "generate", "review"), which the edge map of the node does not hold, and
    the run ends unroutable; after "generate" and "review" the run ends
    with what the handler returned as its state. *)
Theorem no_node_hands_over (n : string) h (st : gmap string (pyval data)) :
  nodes workflow !! n = Some h →
  ∃ stop,
    (n, stop) ∈ [ ("collect", Some "attractions"); ("weather", Some "restaurants");
                  ("attractions", Some "hotels"); ("restaurants", Some "schedule");
                  ("hotels", Some "budget"); ("schedule", Some "generate");
                  ("budget", Some "review"); ("generate", None);
                  ("review", None) ]
    ∧ step workflow n st
      = match h st with
        | Raised e => Stop (Failed e)
        | Returned update =>
            match stop with
            | Some label => Stop (Unroutable n label)
            | None => Goto END update
            end
        end.
Proof.
  intros Hn.
  destruct (h st) as [update|e] eqn:Hrun.
  - destruct (travel_step n h st update Hn Hrun) as (c & path_map & Hin & ->).
    repeat (apply elem_of_cons in Hin as [[= -> -> ->] | Hin];
            [eexists; split; [listed | reflexivity] |]).
    by apply elem_of_nil in Hin.
  - assert (step workflow n st = Stop (Failed e)) as ->
      by (unfold step; by rewrite Hn, Hrun).
    apply workflow_nodes in Hn.
    repeat (apply elem_of_cons in Hn as [[= -> _] | Hn];
            [eexists; split; [listed | reflexivity] |]).
    by apply elem_of_nil in Hn.
Qed.

(** X16: the node "generate" ends the run: once the plan is written the
    run is over, with "current_step" at "review" and the plan in the state;
    the node "review" is not invoked, the state it would write,
    [revision_needed] false and "current_step" at "end", is never
    produced by a run that reaches "generate". *)
Theorem generate_ends_the_run (st : gmap string (pyval data)) (limit : nat)
    (trace : list string) :
  run workflow (S limit) "generate" st trace
  = match plan_text st with
    | Returned final_plan =>
        (trace ++ ["generate"],
         Finished (<["current_step" := VStr "review"]>
                     (<["final_plan" := VStr final_plan]> st)))
    | Raised e => (trace ++ ["generate"], Failed e)
    end.
Proof.
  rewrite run_unfold.
  assert (nodes workflow !! "generate" = Some generate_final_plan) as Hn
    by registered.
  destruct (plan_text st) as [final_plan|e] eqn:Hplan.
  - assert (generate_final_plan st
            = Returned (<["current_step" := VStr "review"]>
                          (<["final_plan" := VStr final_plan]> st))) as Hrun
      by (unfold generate_final_plan, mbind, outcome_bind; by rewrite Hplan).
    destruct (travel_step _ _ _ _ Hn Hrun) as (c & path_map & Hin & ->).
    repeat (apply elem_of_cons in Hin as [Heq | Hin];
            [try discriminate Heq; by injection Heq as -> -> |]).
    by apply elem_of_nil in Hin.
  - unfold step. rewrite Hn. unfold generate_final_plan, mbind, outcome_bind.
    by rewrite Hplan.
Qed.

End TravelSteps.

(** ** The input of a tool *)

Section ToolInput.
Import Py ReactAgent.

Lemma prefix_app (a b : string) : String.prefix a (a +:+ b) = true.
Proof.
  induction a as [|c a IH]; [by destruct b |].
  simpl. by destruct (ascii_dec c c).
Qed.

Lemma string_app_assoc (a b c : string) : (a +:+ b) +:+ c = a +:+ b +:+ c.
Proof.
  induction a as [|x a IH]; [done |].
  change (String x ((a +:+ b) +:+ c) = String x (a +:+ b +:+ c)).
  by rewrite IH.
Qed.

Lemma string_app_nil_r (s : string) : s +:+ "" = s.
Proof.
  induction s as [|c s IH]; [done |].
  change (String c (s +:+ "") = String c s). by rewrite IH.
Qed.

Lemma string_app_snoc (a : string) (c : ascii) (s : string) :
  (a +:+ String c "") +:+ s = a +:+ String c s.
Proof.
  induction a as [|x a IH]; [done |].
  change (String x ((a +:+ String c "") +:+ s) = String x (a +:+ String c s)).
  by rewrite IH.
Qed.

Lemma length_string_app (a b : string) :
  String.length (a +:+ b) = (String.length a + String.length b)%nat.
Proof.
  induction a as [|x a IH]; [done |].
  change (S (String.length (a +:+ b)) = S (String.length a + String.length b)%nat).
  by rewrite IH.
Qed.

Lemma prefix_inv (a s : string) :
  String.prefix a s = true → ∃ t, s = a +:+ t.
Proof.
  revert s. induction a as [|x a IH]; intros s; [by exists s |].
  destruct s as [|y s]; [done |]. simpl.
  destruct (ascii_dec x y) as [<- |]; [| done].
  intros [t ->]%IH. by exists t.
Qed.

(** Without a match there is nothing to cut. *)
Lemma split_from_absent (sep : string) (s : string) : ∀ cur,
  contains sep s = false → split_from sep 0 cur s = [cur +:+ s].
Proof.
  induction s as [|c s IH]; intros cur.
  - intros _. cbn. by rewrite string_app_nil_r.
  - cbn [contains split_from]. intros [Hprefix Hrest]%orb_false_iff.
    rewrite Hprefix, IH by done. by rewrite string_app_snoc.
Qed.

(** The bytes of a match are passed over. *)
Lemma split_from_skip (sep : string) (a : string) : ∀ cur s,
  split_from sep (String.length a) cur (a +:+ s) = split_from sep 0 cur s.
Proof.
  induction a as [|x a IH]; intros cur s; [done |].
  change (split_from sep (String.length a) cur (a +:+ s) = split_from sep 0 cur s).
  apply IH.
Qed.

(** A separator whose first byte does not come again in it cannot match
    across the start of an occurrence of itself. *)
Lemma no_match_across (sep pre rest : string) :
  (∀ k, (0 < k < String.length sep)%nat → String.get k sep ≠ String.get 0 sep) →
  sep ≠ "" →
  String.prefix sep (pre +:+ sep +:+ rest) = true →
  pre = "" ∨ (String.length sep ≤ String.length pre)%nat.
Proof.
  intros Honce Hsep [t Ht]%prefix_inv.
  destruct (decide (pre = "")) as [| Hpre]; [by left | right].
  destruct (decide (String.length sep ≤ String.length pre)%nat) as [| Hshort]; [done |].
  destruct (Honce (String.length pre)).
  { destruct pre; [done |]. cbn in *. lia. }
  rewrite (String.append_correct1 sep t) by lia. rewrite <- Ht.
  pose proof (String.append_correct2 pre (sep +:+ rest) 0) as Hget.
  rewrite Nat.add_0_l in Hget. rewrite <- Hget.
  symmetry. apply String.append_correct1. destruct sep; [done |]. cbn. lia.
Qed.

(** The last piece of a split is what follows the last match. *)
Lemma split_from_last (sep rest : string) :
  (∀ k, (0 < k < String.length sep)%nat → String.get k sep ≠ String.get 0 sep) →
  sep ≠ "" → contains sep rest = false →
  ∀ pre skip cur, (skip ≤ String.length pre)%nat →
  last (split_from sep skip cur (pre +:+ sep +:+ rest)) = Some rest.
Proof.
  intros Honce Hsep Hrest.
  assert (∀ cur, last (split_from sep 0 cur (sep +:+ rest)) = Some rest) as Hhere.
  { intros cur. destruct sep as [|x sep']; [done |].
    change (String x sep' +:+ rest) with (String x (sep' +:+ rest)).
    cbn [split_from].
    change (String x (sep' +:+ rest)) with (String x sep' +:+ rest).
    rewrite prefix_app.
    replace (String.length (String x sep') - 1) with (String.length sep')
      by (cbn; lia).
    rewrite split_from_skip, split_from_absent by done. done. }
  induction pre as [|c pre IH]; intros skip cur Hskip.
  - cbn in Hskip. replace skip with 0 by lia. apply Hhere.
  - change (String c pre +:+ sep +:+ rest) with (String c (pre +:+ sep +:+ rest)).
    destruct skip as [|k]; cbn [split_from].
    + change (String c (pre +:+ sep +:+ rest)) with (String c pre +:+ sep +:+ rest).
      destruct (String.prefix sep (String c pre +:+ sep +:+ rest)) eqn:Hmatch.
      * apply no_match_across in Hmatch as [? | Hlong]; [done | | done | done].
        rewrite last_cons, IH; [done |]. cbn in Hlong. lia.
      * apply IH. lia.
    + apply IH. cbn in Hskip. lia.
Qed.

Lemma action_input_marker_once (k : nat) :
  (0 < k < String.length "Action Input:")%nat →
  String.get k "Action Input:" ≠ String.get 0 "Action Input:".
Proof.
  intros [Hpos Hlt]. cbn in Hlt.
  do 13 (destruct k as [|k]; [first [lia | by vm_compute] |]). lia.
Qed.

(** X17: the input handed to a tool is the text after the last
    "Action Input:" of the reply, stripped; and a reply without any
    "Action Input:" is, stripped, its own input, directive line and all. *)
Theorem action_input_reads_after_last_marker (pre rest : string) :
  contains "Action Input:" rest = false →
  action_input (pre +:+ "Action Input:" +:+ rest) = strip rest
  ∧ action_input rest = strip rest.
Proof.
  intros Hrest. unfold action_input, split, last_piece. split.
  - rewrite (split_from_last "Action Input:" rest action_input_marker_once);
      [done | done | done | lia].
  - by rewrite split_from_absent.
Qed.

End ToolInput.

(** ** The text the calculator of [multi_agent_async.py] hands to [eval] *)

Section SafeExpr.
Import Py AsyncTools.
Context `{AllowedNames}.

(** [replace] leaves a string without any match as it is. *)
Lemma replace_from_absent (old new s : string) :
  contains old s = false → replace_from old new 0 s = s.
Proof.
  induction s as [|c s IH]; [done |].
  cbn [contains replace_from]. intros [Hprefix Hrest]%orb_false_iff.
  rewrite Hprefix. f_equal. by apply IH.
Qed.

(** The bytes of a match are passed over. *)
Lemma replace_from_skip (old new a : string) : ∀ s,
  replace_from old new (String.length a) (a +:+ s) = replace_from old new 0 s.
Proof.
  induction a as [|x a IH]; intros s; [done |].
  change (replace_from old new (String.length a) (a +:+ s)
          = replace_from old new 0 s).
  apply IH.
Qed.

Lemma prefix_cons (x : ascii) (p : string) (y : ascii) (s : string) :
  String.prefix (String x p) (String y s)
  = if ascii_dec x y then String.prefix p s else false.
Proof. reflexivity. Qed.

(** Whether [old] starts a string is settled by as many bytes as [old]
    has. *)
Lemma prefix_beyond (old : string) : ∀ u v,
  (String.length old ≤ String.length u)%nat →
  String.prefix old (u +:+ v) = String.prefix old u.
Proof.
  induction old as [|x old IH]; intros u v Hlen.
  - destruct u; [by destruct v | done].
  - destruct u as [|y u]; [cbn in Hlen; lia |].
    change (String y u +:+ v) with (String y (u +:+ v)). simpl.
    destruct (ascii_dec x y); [| done]. apply IH. cbn in Hlen. lia.
Qed.

(** The first match: when no match starts before the occurrence of [old]
    that follows [a], the scan copies [a], puts [new] for the occurrence and
    goes on after it.  [old] is given by its last byte [c] and the bytes
    [front] before it. *)
Lemma replace_from_first (front : string) (c : ascii) (new a b : string) :
  contains (front +:+ String c "") (a +:+ front) = false →
  replace_from (front +:+ String c "") new 0 (a +:+ (front +:+ String c "") +:+ b)
  = a +:+ new +:+ replace_from (front +:+ String c "") new 0 b.
Proof.
  remember (front +:+ String c "") as old eqn:Hdef.
  assert (String.length old = S (String.length front)) as Hold
    by (rewrite Hdef, length_string_app; cbn; lia).
  induction a as [|y a IH].
  - intros _. change ("" +:+ old +:+ b) with (old +:+ b).
    change ("" +:+ new +:+ replace_from old new 0 b)
      with (new +:+ replace_from old new 0 b).
    clear Hdef. destruct old as [|x rest]; [cbn in Hold; lia |].
    change (String x rest +:+ b) with (String x (rest +:+ b)).
    cbn [replace_from].
    change (String x (rest +:+ b)) with (String x rest +:+ b).
    rewrite prefix_app.
    replace (String.length (String x rest) - 1) with (String.length rest)
      by (cbn; lia).
    by rewrite replace_from_skip.
  - change (String y a +:+ front) with (String y (a +:+ front)).
    cbn [contains]. intros [Hprefix Hrest]%orb_false_iff.
    change (String y a +:+ old +:+ b) with (String y (a +:+ old +:+ b)).
    change (String y a +:+ new +:+ replace_from old new 0 b)
      with (String y (a +:+ new +:+ replace_from old new 0 b)).
    cbn [replace_from].
    replace (String y (a +:+ old +:+ b))
      with (String y (a +:+ front) +:+ String c b).
    + rewrite prefix_beyond, Hprefix; [by rewrite IH |].
      rewrite Hold. cbn. rewrite length_string_app. lia.
    + change (String y (a +:+ front) +:+ String c b)
        with (String y ((a +:+ front) +:+ String c b)).
      f_equal. rewrite Hdef, !string_app_assoc. done.
Qed.

(** No "__" starts in [a], also not with a "_" after it, and none is in
    [b]: none is in [a] followed by [b]. *)
Lemma underscores_joined (a b : string) :
  contains "__" (a +:+ "_") = false → contains "__" b = false →
  contains "__" (a +:+ b) = false.
Proof.
  intros Ha Hb. induction a as [|y a IH]; [done |].
  change (String y a +:+ "_") with (String y (a +:+ "_")) in Ha.
  change (String y a +:+ b) with (String y (a +:+ b)).
  cbn [contains] in Ha |- *.
  apply orb_false_iff in Ha as [Hprefix Hrest].
  rewrite (IH Hrest), orb_false_r. rewrite prefix_cons in Hprefix |- *.
  destruct (ascii_dec "_" y) as [_ | _]; [| done].
  destruct a as [|z a]; [by vm_compute in Hprefix |].
  change (String z a +:+ b) with (String z (a +:+ b)).
  change (String z a +:+ "_") with (String z (a +:+ "_")) in Hprefix.
  rewrite prefix_cons in Hprefix |- *.
  destruct (ascii_dec "_" z) as [_ | _]; [| done].
  by destruct (a +:+ "_").
Qed.

(** X7: the calculator of [multi_agent_async.py] takes an occurrence of "__"
    out of the expression before [eval] sees it.  For an expression [a]
    followed by "__" and [b] in which this is the only "__" and which holds
    no "import" once it is out: the text handed to [eval] is [a] followed by
    [b], the same as for the expression written without the "__", and the
    answer of the calculator is the one [eval] gives for that text. *)
Theorem double_underscore_is_removed_before_eval (a b : string) :
  contains "__" (a +:+ "_") = false →
  contains "__" b = false →
  contains "import" (a +:+ b) = false →
  safe_expr (a +:+ "__" +:+ b) = a +:+ b
  ∧ safe_expr (a +:+ b) = a +:+ b
  ∧ calculator (a +:+ "__" +:+ b)
    = try_except
        (result ← @eval with_allowed_names NoBuiltins (a +:+ b);
         text ← str result;
         Returned ("计算结果: " +:+ text))
        (fun e => Returned ("计算错误: " +:+ exn_text e)).
Proof.
  intros Ha Hb Himport.
  assert (safe_expr (a +:+ "__" +:+ b) = a +:+ b) as Hsafe.
  { unfold safe_expr, replace.
    pose proof (replace_from_first "_" "_" "" a b Ha) as Hfirst.
    change ("_" +:+ String "_" "") with "__" in Hfirst.
    change ("" +:+ replace_from "__" "" 0 b)
      with (replace_from "__" "" 0 b) in Hfirst.
    rewrite Hfirst, (replace_from_absent "__" "" b Hb).
    by apply replace_from_absent. }
  split_and!; [done | | by unfold calculator; rewrite Hsafe].
  unfold safe_expr, replace.
  rewrite (replace_from_absent "__") by by apply underscores_joined.
  by apply replace_from_absent.
Qed.

(** X9: an occurrence of "import" is taken out once, and what is left is not
    looked at again.  For an expression [a] followed by "import" and [b],
    without "__", in which no "import" starts before that occurrence and
    none is in [b]: the text handed to [eval] is [a] followed by [b], also
    when [a] and [b] spell "import" or "__" between them ("im" and "port",
    "_" and "_"), and the answer of the calculator is the one [eval] gives
    for that text. *)
Theorem import_is_removed_once (a b : string) :
  contains "__" (a +:+ "import" +:+ b) = false →
  contains "import" (a +:+ "impor") = false →
  contains "import" b = false →
  safe_expr (a +:+ "import" +:+ b) = a +:+ b
  ∧ calculator (a +:+ "import" +:+ b)
    = try_except
        (result ← @eval with_allowed_names NoBuiltins (a +:+ b);
         text ← str result;
         Returned ("计算结果: " +:+ text))
        (fun e => Returned ("计算错误: " +:+ exn_text e)).
Proof.
  intros Hclean Ha Hb.
  assert (safe_expr (a +:+ "import" +:+ b) = a +:+ b) as Hsafe.
  { unfold safe_expr, replace.
    rewrite (replace_from_absent "__") by done.
    pose proof (replace_from_first "impor" "t" "" a b Ha) as Hfirst.
    change ("impor" +:+ String "t" "") with "import" in Hfirst.
    change ("" +:+ replace_from "import" "" 0 b)
      with (replace_from "import" "" 0 b) in Hfirst.
    by rewrite Hfirst, (replace_from_absent "import" "" b Hb). }
  split; [done |]. unfold calculator. by rewrite Hsafe.
Qed.

End SafeExpr.

(** ** The further properties on concrete runs *)

Section MoreRuns.
Import Py Graph ReactAgent ReactLog Scenarios MoreScenarios.

#[local] Existing Instance plain_interpreter.

(** The model that never gives a final answer, from the input of the
    script. *)
Lemma react_run_comes_to_an_end_witness :
  (0 ≤ 0)%Z
  ∧ ∃ trace e,
      @app_invoke plain_interpreter never_final (state_of [user question] 0)
      = (trace, e)
      ∧ (length trace ≤ 9)%nat ∧ (agent_steps trace ≤ 5)%nat ∧ ended e.
Proof.
  split; [lia |].
  apply (@react_run_comes_to_an_end plain_interpreter never_final). lia.
Defined.

(** Scenario B: two assistant messages and a tool message between them. *)
Lemma finished_run_mirrors_trace_witness :
  let log := [user question; assistant calculator_request;
              tool_message "Observation: 14"; assistant final_reply] in
  @app_invoke plain_interpreter scenario_B (state_of [user question] 0)
  = (["agent"; "tools"; "agent"], Finished (state_of log 2))
  ∧ ∃ added,
      state_of log 2
      = state_of ([user question] ++ added)
          (0 + Z.of_nat (agent_steps ["agent"; "tools"; "agent"]))
      ∧ role <$> added = role_of_node <$> ["agent"; "tools"; "agent"].
Proof.
  intros log.
  assert (@app_invoke plain_interpreter scenario_B (state_of [user question] 0)
          = (["agent"; "tools"; "agent"], Finished (state_of log 2))) as Hrun
    by (by vm_compute).
  split; [exact Hrun |].
  exact (@finished_run_mirrors_trace plain_interpreter scenario_B
           [user question] 0 _ _ Hrun).
Defined.

(** A reply with both directives: the search tool runs, on the input meant
    for the calculator, and nothing is raised. *)
Lemma search_directive_comes_first_witness :
  let ms := [user question; assistant both_directives] in
  contains "Action: Search" both_directives = true
  ∧ contains "Action: Calculator" both_directives = true
  ∧ @tool_node plain_interpreter (state_of ms 1)
    = Returned {[ "messages" :=
                    VList [tool_message "Observation: 搜索结果: 1//0 的相关信息..."] ]}.
Proof.
  intros ms. split; [reflexivity |]. split; [reflexivity |].
  exact (@search_directive_comes_first plain_interpreter (state_of ms 1) ms
           (assistant both_directives) eq_refl eq_refl eq_refl).
Defined.

(** A sum written with a "__" in it: the sum is evaluated. *)
Lemma double_underscore_is_removed_before_eval_witness :
  contains "__" ("2 " +:+ "_") = false
  ∧ contains "__" "+ 3" = false
  ∧ contains "import" ("2 " +:+ "+ 3") = false
  ∧ AsyncTools.safe_expr "2 __+ 3" = "2 + 3"
  ∧ @AsyncTools.calculator plain_interpreter arithmetic_only "2 __+ 3"
    = Returned "计算结果: 5".
Proof.
  split; [reflexivity |]. split; [reflexivity |]. split; [reflexivity |].
  destruct (@double_underscore_is_removed_before_eval
              plain_interpreter arithmetic_only "2 " "+ 3"
              eq_refl eq_refl eq_refl) as (Hsafe & _ & Hanswer).
  split; [exact Hsafe |].
  etrans; [exact Hanswer | by vm_compute].
Defined.

(** The two words spelt again by what is left around a removed "import". *)
Lemma import_is_removed_once_witness :
  contains "__" ("im" +:+ "import" +:+ "port") = false
  ∧ contains "import" ("im" +:+ "impor") = false
  ∧ contains "import" "port" = false
  ∧ AsyncTools.safe_expr "imimportport" = "import"
  ∧ AsyncTools.safe_expr "_import_" = "__".
Proof.
  split; [reflexivity |]. split; [reflexivity |]. split; [reflexivity |].
  split.
  - exact (proj1 (@import_is_removed_once plain_interpreter arithmetic_only
                    "im" "port" eq_refl eq_refl eq_refl)).
  - exact (proj1 (@import_is_removed_once plain_interpreter arithmetic_only
                    "_" "_" eq_refl eq_refl eq_refl)).
Defined.

(** Two directives with an input each: the second input is read. *)
Lemma action_input_reads_after_last_marker_witness :
  contains "Action Input:" " 2+3 " = false
  ∧ action_input "Action: Search
Action Input: 新闻
Action: Calculator
Action Input: 2+3 " = "2+3".
Proof.
  split; [reflexivity |].
  exact (proj1 (action_input_reads_after_last_marker
                  "Action: Search
Action Input: 新闻
Action: Calculator
" " 2+3 " eq_refl)).
Defined.

End MoreRuns.

Section MoreAsyncRuns.
Import Py MultiAgentAsync Scenarios MoreScenarios.

#[local] Existing Instance plain_interpreter.

(** One failed and one successful result: one prompt, about the successful
    one. *)
Lemma synthesis_asks_once_about_the_successes_witness :
  let results := [failed_result "搜索专家-1"; succeeded_result "搜索专家-2"] in
  Exists (fun r => success r = true) results
  ∧ @summarizer_ainvoke plain_interpreter ticking "总结专家" results fresh
    = ({| agent := "总结专家"; task := summarizer_task; result := "研究报告";
          duration := 1 : @seconds ticking; timestamp := 1 : @time ticking;
          success := true |},
       {| readings := 2;
          prompts := [@report_prompt (@entry ticking (succeeded_result "搜索专家-2"))] |}).
Proof.
  intros results.
  assert (Exists (fun r => success r = true) results) as Hsome
    by (right; left; reflexivity).
  split; [exact Hsome |].
  exact (@synthesis_asks_once_about_the_successes plain_interpreter ticking
           "总结专家" results fresh Hsome).
Defined.

(** Every executor out of reach, the third task failing first. *)
Lemma research_with_every_agent_failing_witness :
  completion_order ≡ₚ [0; 1; 2]
  ∧ (∀ name job, ∃ e, @executor_invoke all_down name job = Raised e)
  ∧ ∃ report w',
      @research plain_interpreter all_down "AI" completion_order fresh
      = (Some report, w')
      ∧ result (final_summary report) = all_failed_text
      ∧ report_success report = false
      ∧ prompts w' = [].
Proof.
  assert (∀ name job, ∃ e, @executor_invoke all_down name job = Raised e) as Hdown
    by (intros name job; eexists; reflexivity).
  split; [exact completion_order_is_a_permutation |]. split; [exact Hdown |].
  destruct (@research_with_every_agent_failing plain_interpreter all_down
              "AI" completion_order fresh completion_order_is_a_permutation Hdown)
    as (report & w' & Hrun & _ & _ & Hresult & Hsuccess & Hprompts).
  exists report, w'. split; [assumption |]. split; [assumption |].
  split; assumption.
Defined.

(** The second agent timing out: a report all the same. *)
Lemma research_always_reports_witness :
  completion_order ≡ₚ [0; 1; 2]
  ∧ ∃ report w',
      @research plain_interpreter ticking "AI" completion_order fresh
      = (Some report, w')
      ∧ agent <$> search_results report = ["搜索专家-1"; "搜索专家-2"; "数据分析师"].
Proof.
  split; [exact completion_order_is_a_permutation |].
  destruct (@research_always_reports plain_interpreter ticking
              "AI" completion_order fresh completion_order_is_a_permutation)
    as (report & w' & Hrun & _ & Hagents & _).
  exists report, w'. split; assumption.
Defined.

End MoreAsyncRuns.

Section MoreTravelRuns.
Import Py Graph Travel Scenarios.

#[local] Existing Instance obliging.

(** The weather handler on a request: the weather is written, the
    destination is what it was. *)
Lemma handlers_keep_the_request_witness :
  let st : gmap string (pyval data) := {[ "destination" := VStr "杭州" ]} in
  let st' := <["current_step" := VStr "find_attractions"]>
               (<["weather_info" := VData ["晴"]]> st) in
  nodes workflow !! "weather" = Some check_weather
  ∧ check_weather st = Returned st'
  ∧ st' !! "destination" = Some (VStr "杭州").
Proof.
  intros st st'.
  assert (nodes workflow !! "weather" = Some check_weather) as Hn by reflexivity.
  split; [exact Hn |]. split; [reflexivity |].
  destruct (handlers_keep_the_request "weather" check_weather st Hn)
    as (c & field & written & _ & _ & Hall).
  destruct (Hall st' eq_refl) as (_ & _ & _ & Hkeep).
  rewrite (Hkeep "destination"); [reflexivity |].
  apply list_elem_of_here.
Defined.

(** The step from "weather": the label is "restaurants", which the edge map
    of the node does not hold. *)
Lemma no_node_hands_over_witness :
  let st : gmap string (pyval data) := {[ "destination" := VStr "杭州" ]} in
  nodes workflow !! "weather" = Some check_weather
  ∧ step workflow "weather" st = Stop (Unroutable "weather" "restaurants").
Proof.
  intros st.
  assert (nodes workflow !! "weather" = Some check_weather) as Hn by reflexivity.
  split; [exact Hn |].
  destruct (no_node_hands_over "weather" check_weather st Hn)
    as (stop & Hin & Hstep).
  rewrite Hstep.
  repeat (apply elem_of_cons in Hin as [Heq | Hin];
          [try discriminate Heq; injection Heq as ->; reflexivity |]).
  by apply elem_of_nil in Hin.
Defined.

End MoreTravelRuns.
